(** * The watch registry and change detector of the Steam updates bot

    A shallow embedding of [GameTracker] (src/tracker.py) and of the logging
    helper it uses (src/utils.py), with the properties of the tracking
    and change-detection engine proved about it.

    Conventions of the embedding:
    - a Python [int] is a [Z]; a Python [str] is a [string] holding the
      UTF-8 bytes of the text; [None] is [option]'s [None];
    - a Python [dict] with string keys is an insertion-ordered association
      list ([Dict.t]): iteration order is the list order, assignment to a
      present key keeps its position, assignment to a new key appends;
    - the tracker object is a record that is passed through every method;
      the outcome of the file write, the clock and the text of a raised
      exception are inputs of the methods that use them. *)

From Stdlib Require Import List String Ascii ZArith Bool Lia.
From Stdlib Require Import Decimal DecimalString DecimalZ.
Import ListNotations.
Local Open Scope string_scope.
Local Open Scope Z_scope.
Local Open Scope list_scope.

(** ** Python dictionaries with string keys *)

Module Dict.

Definition t (V : Type) : Type := list (string * V).

Definition empty {V : Type} : t V := [].

(** [d.get(k)], [None] when [k not in d]. *)
Fixpoint get {V : Type} (k : string) (d : t V) : option V :=
  match d with
  | [] => None
  | (k', v) :: r => if String.eqb k k' then Some v else get k r
  end.

(** [k in d] *)
Definition mem {V : Type} (k : string) (d : t V) : bool :=
  match get k d with Some _ => true | None => false end.

(** [d[k] = v] *)
Fixpoint set {V : Type} (k : string) (v : V) (d : t V) : t V :=
  match d with
  | [] => [(k, v)]
  | (k', v') :: r =>
      if String.eqb k k' then (k', v) :: r else (k', v') :: set k v r
  end.

(** [del d[k]] *)
Definition del {V : Type} (k : string) (d : t V) : t V :=
  filter (fun kv => negb (String.eqb k (fst kv))) d.

(** [not d] *)
Definition is_empty {V : Type} (d : t V) : bool :=
  match d with [] => true | _ :: _ => false end.

Definition keys {V : Type} (d : t V) : list string := map fst d.

End Dict.

(** ** Python built-ins *)

(** [str(n)] for an [int]: the decimal numeral, with a leading minus sign
    for a negative number. *)
Definition str (n : Z) : string := NilZero.string_of_int (Z.to_int n).

(** [int(s)] on the numerals that [str] writes; [None] stands for the
    [ValueError] Python raises. *)
Definition int (s : string) : option Z :=
  option_map Z.of_int (NilZero.int_of_string s).

(** [x in l] for a list of ints. *)
Definition contains (x : Z) (l : list Z) : bool := existsb (Z.eqb x) l.

(** [l.remove(x)]: drops the first occurrence of [x]. *)
Fixpoint remove (x : Z) (l : list Z) : list Z :=
  match l with
  | [] => []
  | y :: r => if Z.eqb x y then r else y :: remove x r
  end.

(** [a != b] where [a] is a [str] and [b] a [str] or [None]. *)
Definition differs (a : string) (b : option string) : bool :=
  match b with
  | None => true
  | Some c => negb (String.eqb a c)
  end.

(** ** The stored document *)

(** [current_data]: the last observed state of a game. *)
Module Snapshot.
Record t : Type := make {
  price : option string;
  release_date : option string;
  preorder_status : bool;
  last_update : option string
}.

Definition with_price (v : string) (c : t) : t :=
  make (Some v) (release_date c) (preorder_status c) (last_update c).
Definition with_release_date (v : string) (c : t) : t :=
  make (price c) (Some v) (preorder_status c) (last_update c).
Definition with_preorder_status (v : bool) (c : t) : t :=
  make (price c) (release_date c) v (last_update c).
Definition with_last_update (v : string) (c : t) : t :=
  make (price c) (release_date c) (preorder_status c) (Some v).
End Snapshot.

(** One value of [tracked_games]. [watchers] maps [str(channel_id)] to the
    list of user ids watching in that channel. *)
Module Game.
Record t : Type := make {
  id : Z;
  name : string;
  watchers : Dict.t (list Z);
  last_check : option string;
  current_data : Snapshot.t
}.

Definition with_watchers (ws : Dict.t (list Z)) (g : t) : t :=
  make (id g) (name g) ws (last_check g) (current_data g).
Definition with_current_data (c : Snapshot.t) (g : t) : t :=
  make (id g) (name g) (watchers g) (last_check g) c.
Definition with_last_check (v : string) (g : t) : t :=
  make (id g) (name g) (watchers g) (Some v) (current_data g).
End Game.

Definition registry : Type := Dict.t Game.t.

(** The tracker object together with the file it owns: [tracked_games] is
    the attribute of that name, [disk] is the document currently stored
    under [data_file] ([None]: no file, or one that does not parse).
    Serialising with [json.dump] and reading back with [json.load] is the
    identity on documents of this shape.

    [log_command] only hands a record to the [steam_bot] logger, which
    writes it to the console and to the log file; no method reads it back,
    so the log is not part of the state. *)
Record GameTracker : Type := {
  tracked_games : registry;
  disk : option registry
}.

Definition with_tracked_games (r : registry) (t : GameTracker) : GameTracker :=
  {| tracked_games := r; disk := disk t |}.

(** What a write of the data file does: it goes through, or it raises and
    leaves [residue] on disk (the old document when [open] failed, a
    truncated one when [json.dump] failed). *)
Inductive write_outcome : Type :=
| WriteOk
| WriteFails (residue : option registry).

(** ** GameTracker *)

(** [_load_tracking_data]: a missing file and a failed read both leave
    [tracked_games] as it was. *)
Definition _load_tracking_data (t : GameTracker) : GameTracker :=
  match disk t with
  | Some doc => with_tracked_games doc t
  | None => t
  end.

(** [__init__], given the content of the data file. *)
Definition init (file : option registry) : GameTracker :=
  _load_tracking_data {| tracked_games := Dict.empty; disk := file |}.

(** [_save_tracking_data]: the exception of a failed write is caught and
    logged inside the method; nothing is raised to the caller. *)
Definition _save_tracking_data (w : write_outcome) (t : GameTracker)
  : GameTracker :=
  match w with
  | WriteOk => {| tracked_games := tracked_games t;
                  disk := Some (tracked_games t) |}
  | WriteFails residue => {| tracked_games := tracked_games t;
                             disk := residue |}
  end.

Definition new_game (game_id : Z) (game_name : string) : Game.t :=
  Game.make game_id game_name Dict.empty None
            (Snapshot.make None None false None).

(** [track_game]. The [None] branches are the [KeyError] of a subscript
    on a missing key, caught by the method's [except]; the lookups they
    guard follow an insertion of the same key. *)
Definition track_game (w : write_outcome) (game_id : Z) (game_name : string)
    (channel_id user_id : Z) (t : GameTracker) : bool * GameTracker :=
  let game_key := str game_id in
  let games := tracked_games t in
  let games :=
    if negb (Dict.mem game_key games)
    then Dict.set game_key (new_game game_id game_name) games
    else games in
  match Dict.get game_key games with
  | None => (false, with_tracked_games games t)
  | Some g =>
      let ws := Game.watchers g in
      let ws :=
        if negb (Dict.mem (str channel_id) ws)
        then Dict.set (str channel_id) [] ws
        else ws in
      match Dict.get (str channel_id) ws with
      | None =>
          (false,
           with_tracked_games
             (Dict.set game_key (Game.with_watchers ws g) games) t)
      | Some us =>
          let ws :=
            if negb (contains user_id us)
            then Dict.set (str channel_id) (us ++ [user_id]) ws
            else ws in
          let games := Dict.set game_key (Game.with_watchers ws g) games in
          (true, _save_tracking_data w (with_tracked_games games t))
      end
  end.

(** [untrack_game] *)
Definition untrack_game (w : write_outcome) (game_id channel_id user_id : Z)
    (t : GameTracker) : bool * GameTracker :=
  let game_key := str game_id in
  match Dict.get game_key (tracked_games t) with
  | Some g =>
      let channel_key := str channel_id in
      match Dict.get channel_key (Game.watchers g) with
      | Some us =>
          if contains user_id us then
            let us := remove user_id us in
            let ws := Dict.set channel_key us (Game.watchers g) in
            (* Clean up if no watchers left *)
            let ws :=
              match us with
              | [] => Dict.del channel_key ws
              | _ :: _ => ws
              end in
            let games :=
              Dict.set game_key (Game.with_watchers ws g) (tracked_games t) in
            let games :=
              if Dict.is_empty ws then Dict.del game_key games else games in
            (true, _save_tracking_data w (with_tracked_games games t))
          else (false, t)
      | None => (false, t)
      end
  | None => (false, t)
  end.

(** An element of the list [get_tracked_games] returns. *)
Record summary : Type := {
  summary_id : Z;
  summary_name : string;
  summary_current_data : Snapshot.t
}.

Definition summary_of (game_data : Game.t) : summary :=
  {| summary_id := Game.id game_data;
     summary_name := Game.name game_data;
     summary_current_data := Game.current_data game_data |}.

(** The loop body's test: [false] where the loop does [continue]. *)
Definition listed (channel_id user_id : option Z) (game_data : Game.t)
  : bool :=
  match channel_id with
  | Some c =>
      match Dict.get (str c) (Game.watchers game_data) with
      | None => false
      | Some us =>
          match user_id with
          | Some u => contains u us
          | None => true
          end
      end
  | None => true
  end.

(** [get_tracked_games]: one summary per item that is not skipped, in the
    order of the dictionary. *)
Definition get_tracked_games (channel_id user_id : option Z)
    (t : GameTracker) : list summary :=
  map (fun item => summary_of (snd item))
      (filter (fun item => listed channel_id user_id (snd item))
              (tracked_games t)).

(** An element of the list [update_game_data] returns. *)
Record notification : Type := {
  type : string;
  message : string
}.

Definition newline : string := String "010"%char "".

(** The f-strings of the three notifications. *)
Definition price_message (game_name previous new : string) : string :=
  String.concat ""
    ["💰 Price Update: "; game_name; newline;
     "Previous: "; previous; newline;
     "New: "; new].

Definition release_date_message (game_name previous new : string) : string :=
  String.concat ""
    ["📅 Release Date Changed: "; game_name; newline;
     "Previous: "; previous; newline;
     "New: "; new].

Definition preorder_message (game_name : string) (preorder_status : bool)
  : string :=
  String.concat ""
    ["🎮 Pre-order Status Update: "; game_name; newline;
     "Now "; (if preorder_status then "available" else "unavailable");
     " for pre-order!"].

(** The three checks of [update_game_data], each on the notifications
    gathered so far and on [current], the game's [current_data]. *)
Definition check_price (game_name : string) (price : option string)
    (st : list notification * Snapshot.t) : list notification * Snapshot.t :=
  let '(notifications, current) := st in
  match price with
  | Some price =>
      if differs price (Snapshot.price current) then
        let notifications :=
          match Snapshot.price current with
          | Some previous =>
              notifications ++
              [{| type := "price";
                  message := price_message game_name previous price |}]
          | None => notifications
          end in
        (notifications, Snapshot.with_price price current)
      else (notifications, current)
  | None => (notifications, current)
  end.

Definition check_release_date (game_name : string)
    (release_date : option string)
    (st : list notification * Snapshot.t) : list notification * Snapshot.t :=
  let '(notifications, current) := st in
  match release_date with
  | Some release_date =>
      if differs release_date (Snapshot.release_date current) then
        let notifications :=
          match Snapshot.release_date current with
          | Some previous =>
              notifications ++
              [{| type := "release_date";
                  message :=
                    release_date_message game_name previous release_date |}]
          | None => notifications
          end in
        (notifications, Snapshot.with_release_date release_date current)
      else (notifications, current)
  | None => (notifications, current)
  end.

Definition check_preorder_status (game_name : string)
    (preorder_status : option bool)
    (st : list notification * Snapshot.t) : list notification * Snapshot.t :=
  let '(notifications, current) := st in
  match preorder_status with
  | Some preorder_status =>
      if negb (Bool.eqb preorder_status (Snapshot.preorder_status current))
      then
        (notifications ++
         [{| type := "preorder";
             message := preorder_message game_name preorder_status |}],
         Snapshot.with_preorder_status preorder_status current)
      else (notifications, current)
  | None => (notifications, current)
  end.

Definition set_last_update (last_update : option string)
    (st : list notification * Snapshot.t) : list notification * Snapshot.t :=
  let '(notifications, current) := st in
  match last_update with
  | Some last_update =>
      (notifications, Snapshot.with_last_update last_update current)
  | None => (notifications, current)
  end.

(** [update_game_data]; [now] is [datetime.now().isoformat()]. *)
Definition update_game_data (w : write_outcome) (now : string) (game_id : Z)
    (price release_date : option string) (preorder_status : option bool)
    (last_update : option string) (t : GameTracker)
  : list notification * GameTracker :=
  let game_key := str game_id in
  match Dict.get game_key (tracked_games t) with
  | None => ([], t)
  | Some g =>
      let game_name := Game.name g in
      let st := ([], Game.current_data g) in
      let st := check_price game_name price st in
      let st := check_release_date game_name release_date st in
      let st := check_preorder_status game_name preorder_status st in
      let '(notifications, current) := set_last_update last_update st in
      let g := Game.with_last_check now (Game.with_current_data current g) in
      let games := Dict.set game_key g (tracked_games t) in
      (notifications, _save_tracking_data w (with_tracked_games games t))
  end.

(** An element of the list [get_notification_channels] returns. *)
Module Channel.
Record t : Type := make {
  channel_id : Z;
  users : list Z
}.
End Channel.

(** The loop of [get_notification_channels]; [None] when [int] raises. *)
Fixpoint channels_of (items : Dict.t (list Z)) : option (list Channel.t) :=
  match items with
  | [] => Some []
  | (channel_id, users) :: rest =>
      match int channel_id with
      | None => None
      | Some c =>
          option_map (cons (Channel.make c users)) (channels_of rest)
      end
  end.

(** [get_notification_channels]; a [ValueError] of [int] is caught by the
    method's [except], which returns the empty list. *)
Definition get_notification_channels (game_id : Z) (t : GameTracker)
  : list Channel.t :=
  let game_key := str game_id in
  match Dict.get game_key (tracked_games t) with
  | None => []
  | Some g =>
      match channels_of (Game.watchers g) with
      | Some channels => channels
      | None => []
      end
  end.

Definition fresh : GameTracker := init None.

(** ** Predicates used in the statements *)

(** [user_id] is a watcher of the game in the channel. *)
Definition watching (r : registry) (game_id channel_id user_id : Z) : bool :=
  match Dict.get (str game_id) r with
  | Some g =>
      match Dict.get (str channel_id) (Game.watchers g) with
      | Some us => contains user_id us
      | None => false
      end
  | None => false
  end.

(** The game has at least one channel with at least one user. *)
Definition watched (g : Game.t) : Prop :=
  exists channel_key us u,
    Dict.get channel_key (Game.watchers g) = Some us /\ In u us.

(** The invariant of the data model: a key is in the store if and only if
    its game has at least one channel with at least one user. *)
Definition store_invariant (r : registry) : Prop :=
  forall game_key,
    Dict.mem game_key r = true <->
    exists g, Dict.get game_key r = Some g /\ watched g.

(** The form in which the methods maintain it: no game is left without a
    channel entry and no channel entry is left with an empty list. *)
Definition channel_ok (entry : string * list Z) : bool :=
  match snd entry with
  | [] => false
  | _ :: _ => true
  end.

Definition game_ok (g : Game.t) : bool :=
  negb (Dict.is_empty (Game.watchers g)) &&
  forallb channel_ok (Game.watchers g).

Definition registry_ok (r : registry) : bool :=
  forallb (fun item => game_ok (snd item)) r.

(** The lists of user ids are used as sets: no list holds an id twice. *)
Fixpoint distinct (l : list Z) : bool :=
  match l with
  | [] => true
  | x :: r => negb (contains x r) && distinct r
  end.

Definition users_distinct (r : registry) : bool :=
  forallb
    (fun item =>
       forallb (fun entry => distinct (snd entry)) (Game.watchers (snd item)))
    r.

(** The snapshot stored for a game, if the game is tracked. *)
Definition stored (r : registry) (game_id : Z) : option Snapshot.t :=
  option_map Game.current_data (Dict.get (str game_id) r).

(** The watchers of a game once [user_id] is registered in the channel:
    what the second half of [track_game] leaves in [watchers]. *)
Definition add_watcher (channel_id user_id : Z) (ws : Dict.t (list Z))
  : Dict.t (list Z) :=
  let us :=
    match Dict.get (str channel_id) ws with
    | Some us => us
    | None => []
    end in
  Dict.set (str channel_id)
           (if contains user_id us then us else us ++ [user_id]) ws.

(** The states the tracker can be in when it starts without a data file
    and its methods are called in any order, with any arguments. *)
Inductive reachable : GameTracker -> Prop :=
| reachable_init : reachable (init None)
| reachable_track w game_id game_name channel_id user_id t :
    reachable t ->
    reachable (snd (track_game w game_id game_name channel_id user_id t))
| reachable_untrack w game_id channel_id user_id t :
    reachable t ->
    reachable (snd (untrack_game w game_id channel_id user_id t))
| reachable_update w now game_id price release_date preorder_status
                   last_update t :
    reachable t ->
    reachable (snd (update_game_data w now game_id price release_date
                                     preorder_status last_update t)).

(** The keys as the tracker writes them: no key occurs twice, a game is
    stored under [str] of its [id], a channel under [str] of an int. *)
Definition canonical (key : string) : bool :=
  match int key with
  | Some n => String.eqb (str n) key
  | None => false
  end.

Fixpoint unique (keys : list string) : bool :=
  match keys with
  | [] => true
  | k :: r => negb (existsb (String.eqb k) r) && unique r
  end.

Definition game_keyed (item : string * Game.t) : bool :=
  String.eqb (fst item) (str (Game.id (snd item))) &&
  unique (Dict.keys (Game.watchers (snd item))) &&
  forallb (fun entry => canonical (fst entry)) (Game.watchers (snd item)).

Definition well_keyed (r : registry) : bool :=
  unique (Dict.keys r) && forallb game_keyed r.

(** The value a field of [current_data] has after an update that observed
    [observed]. *)
Definition merged {A : Type} (observed : option A) (previous : option A)
  : option A :=
  match observed with
  | Some v => Some v
  | None => previous
  end.

(** Some notification of the list has the given [type]. *)
Definition notifies (kind : string) (notifications : list notification)
  : bool :=
  existsb (fun n => String.eqb (type n) kind) notifications.

(** The previous and the new value of a field for which an update
    notifies: the observed value is there, a value was stored, and the two
    differ. *)
Definition changed (observed previous : option string)
  : option (string * string) :=
  match observed, previous with
  | Some new, Some old =>
      if String.eqb new old then None else Some (old, new)
  | _, _ => None
  end.

(** The same for the pre-order status, which is always stored. *)
Definition flipped (observed : option bool) (previous : bool) : option bool :=
  match observed with
  | Some new => if Bool.eqb new previous then None else Some new
  | None => None
  end.

(** ** The polling task of the bot (src/bot.py)

    [SteamBot.check_tracked_games] asks the store for every tracked game
    and hands what it reads to [update_game_data]; the notifications that
    come back are sent to the channels of the game. The task is modelled
    as it runs when no command of the bot is served between its steps.
    What lies outside the program is an input: the replies of the store,
    the clock, the outcome of the file writes, the channels the client
    knows and the sends that raise. *)

(** A decoded JSON document (numbers are the integers). *)
#[warnings="-register-all"] Inductive json : Type :=
| JNull
| JBool (b : bool)
| JInt (n : Z)
| JStr (s : string)
| JList (items : list json)
| JDict (items : list (string * json)).

(** The truth value of a decoded document in an [if]. *)
Definition truthy (v : json) : bool :=
  match v with
  | JNull => false
  | JBool b => b
  | JInt n => negb (Z.eqb n 0)
  | JStr s => negb (String.eqb s "")
  | JList items => match items with [] => false | _ :: _ => true end
  | JDict items => match items with [] => false | _ :: _ => true end
  end.

(** [v.get(key, default)]; [None] is the [AttributeError] of a value that
    is not a [dict]. *)
Definition json_get (v : json) (key : string) (default : json)
  : option json :=
  match v with
  | JDict items =>
      Some match Dict.get key items with
           | Some x => x
           | None => default
           end
  | _ => None
  end.

(** The reply to the request for one game: the request raised, or it
    came back with a status and a body ([None]: [response.json()]
    raises). *)
Inductive reply : Type :=
| RequestRaises
| Reply (status : Z) (body : option json).

(** What the request for one game comes to in the loop: an exception
    before [update_game_data] is called, no call, or a call with these
    arguments. *)
Inductive fetched : Type :=
| Raises
| Skips
| Observes (price release_date : option string)
           (preorder_status : option bool).

(** The values [update_game_data] declares for its parameters
    ([Optional[str]], [Optional[bool]]) among the decoded values. *)
Definition as_str (v : json) : option (option string) :=
  match v with
  | JNull => Some None
  | JStr s => Some (Some s)
  | _ => None
  end.

Definition as_bool (v : json) : option (option bool) :=
  match v with
  | JNull => Some None
  | JBool b => Some (Some b)
  | _ => None
  end.

(** The body of the loop from the reply to the call of
    [update_game_data]: the status test, the two [get] that lead to
    [game_data], its truth test and the three arguments. The result is
    [None] when an argument has a type [update_game_data] does not declare
    (the model does not follow such a call). *)
Definition classify (game_id : Z) (r : reply) : option fetched :=
  match r with
  | RequestRaises => Some Raises
  | Reply status body =>
      if Z.eqb status 200 then
        match body with
        | None => Some Raises
        | Some data =>
            match json_get data (str game_id) (JDict []) with
            | None => Some Raises
            | Some entry =>
                match json_get entry "data" (JDict []) with
                | None => Some Raises
                | Some game_data =>
                    if truthy game_data then
                      match json_get game_data "price_overview" (JDict []),
                            json_get game_data "release_date" (JDict []) with
                      | Some price_overview, Some release =>
                          match json_get price_overview "final_formatted"
                                         JNull,
                                json_get release "date" JNull,
                                json_get release "coming_soon" (JBool false)
                          with
                          | Some price, Some date, Some coming_soon =>
                              match as_str price, as_str date,
                                    as_bool coming_soon with
                              | Some p, Some d, Some b =>
                                  Some (Observes p d b)
                              | _, _, _ => None
                              end
                          | _, _, _ => Some Raises
                          end
                      | _, _ => Some Raises
                      end
                    else Some Skips
                end
            end
        end
      else Some Skips
  end.

(** What is outside the program during one run of the task. The index
    [i] is the position of the game in the list the task walks; a send is
    numbered by the game, the channel and the notification. [fetch] is
    what the request for the [i]-th game comes to ([classify] of its
    reply); [get_channel] tells whether the client knows a channel, which
    is taken not to change during the run. *)
Record environment : Type := {
  fetch : nat -> fetched;
  update_time : nat -> string;
  check_time : nat -> string;
  write_of : nat -> write_outcome;
  get_channel : Z -> bool;
  send_raises : nat -> nat -> nat -> bool
}.

(** A message handed to [channel.send] that was sent: the channel, the
    text (the mentions) and the title and description of the embed. *)
Record outgoing : Type := {
  channel : Z;
  content : string;
  title : string;
  description : string
}.

(** [" ".join(f"<@{user_id}>" for user_id in users)] *)
Definition users_mention (users : list Z) : string :=
  String.concat " "
    (map (fun user_id => String.concat "" ["<@"; str user_id; ">"]) users).

Definition update_message (channel_data : Channel.t) (game_name : string)
    (notif : notification) : outgoing :=
  {| channel := Channel.channel_id channel_data;
     content := users_mention (Channel.users channel_data);
     title := String.concat "" ["Game Update: "; game_name];
     description := message notif |}.

(** [for notif in notifications: ... await channel.send(...)]; the
    boolean tells that a send raised. *)
Fixpoint send_all (raises : nat -> bool) (k : nat) (channel_data : Channel.t)
    (game_name : string) (notifications : list notification)
    (sent : list outgoing) : bool * list outgoing :=
  match notifications with
  | [] => (false, sent)
  | notif :: rest =>
      if raises k then (true, sent)
      else send_all raises (S k) channel_data game_name rest
                    (sent ++ [update_message channel_data game_name notif])
  end.

(** [for channel_data in channels: ...] *)
Fixpoint notify_channels (e : environment) (i j : nat)
    (channels : list Channel.t) (game_name : string)
    (notifications : list notification) (sent : list outgoing)
  : bool * list outgoing :=
  match channels with
  | [] => (false, sent)
  | channel_data :: rest =>
      if get_channel e (Channel.channel_id channel_data) then
        let '(raised, sent) :=
          send_all (send_raises e i j) 0 channel_data game_name
                   notifications sent in
        if raised then (true, sent)
        else notify_channels e i (S j) rest game_name notifications sent
      else notify_channels e i (S j) rest game_name notifications sent
  end.

(** [for game in games: ...], inside the [try] of the task: an exception
    ends the loop. The result is the messages sent and the tracker. *)
Fixpoint poll (e : environment) (i : nat) (games : list summary)
    (t : GameTracker) (sent : list outgoing) : list outgoing * GameTracker :=
  match games with
  | [] => (sent, t)
  | game :: rest =>
      match fetch e i with
      | Raises => (sent, t)
      | Skips => poll e (S i) rest t sent
      | Observes price release_date preorder_status =>
          let '(notifications, t) :=
            update_game_data (write_of e i) (check_time e i)
                             (summary_id game) price release_date
                             preorder_status (Some (update_time e i)) t in
          match notifications with
          | [] => poll e (S i) rest t sent
          | _ :: _ =>
              let channels :=
                get_notification_channels (summary_id game) t in
              let '(raised, sent) :=
                notify_channels e i 0 channels (summary_name game)
                                notifications sent in
              if raised then (sent, t) else poll e (S i) rest t sent
          end
      end
  end.

(** [check_tracked_games] *)
Definition check_tracked_games (e : environment) (t : GameTracker)
  : list outgoing * GameTracker :=
  poll e 0 (get_tracked_games None None t) t [].

(** What the task keeps of every game: the key, [id], [name] and
    [watchers], in the order of the store. *)
Definition registration (item : string * Game.t)
  : string * Z * string * Dict.t (list Z) :=
  (fst item, Game.id (snd item), Game.name (snd item),
   Game.watchers (snd item)).

(** * Properties *)

(** ** Dictionaries *)

Module DictFacts.
Section Facts.
Context {V : Type}.
Implicit Types (k : string) (v : V) (d : Dict.t V).

Lemma get_set_same k v d : Dict.get k (Dict.set k v d) = Some v.
Proof.
  induction d as [|[k' v'] r IH]; simpl.
  - now rewrite String.eqb_refl.
  - destruct (String.eqb k k') eqn:E; simpl; rewrite E; auto.
Qed.

Lemma get_set_other k k' v d :
  k' <> k -> Dict.get k' (Dict.set k v d) = Dict.get k' d.
Proof.
  intros N. induction d as [|[k0 v0] r IH]; simpl.
  - apply String.eqb_neq in N. now rewrite N.
  - destruct (String.eqb k k0) eqn:E; simpl; [|now rewrite IH].
    apply String.eqb_eq in E. subst k0.
    apply String.eqb_neq in N. now rewrite N.
Qed.

Lemma set_get_same k v d : Dict.get k d = Some v -> Dict.set k v d = d.
Proof.
  induction d as [|[k' v'] r IH]; simpl; [discriminate|].
  destruct (String.eqb k k') eqn:E.
  - now intros [= ->].
  - intros H. now rewrite IH.
Qed.

Lemma set_set k v v' d :
  Dict.set k v (Dict.set k v' d) = Dict.set k v d.
Proof.
  induction d as [|[k' v0] r IH]; simpl.
  - now rewrite String.eqb_refl.
  - destruct (String.eqb k k') eqn:E; simpl; rewrite E; [|rewrite IH];
      reflexivity.
Qed.

Lemma get_del_same k d : Dict.get k (Dict.del k d) = None.
Proof.
  induction d as [|[k' v'] r IH]; simpl; auto.
  destruct (String.eqb k k') eqn:E; simpl; auto. now rewrite E.
Qed.

Lemma get_del_other k k' d :
  k' <> k -> Dict.get k' (Dict.del k d) = Dict.get k' d.
Proof.
  intros N. induction d as [|[k0 v0] r IH]; simpl; auto.
  destruct (String.eqb k k0) eqn:E; simpl.
  - apply String.eqb_eq in E. subst k0.
    apply String.eqb_neq in N. now rewrite N.
  - now rewrite IH.
Qed.

Lemma mem_get k d :
  Dict.mem k d = true <-> exists v, Dict.get k d = Some v.
Proof.
  unfold Dict.mem. destruct (Dict.get k d) as [v|].
  - split; eauto.
  - split; [discriminate|]. now intros [v [=]].
Qed.

Lemma mem_false k d : Dict.mem k d = false <-> Dict.get k d = None.
Proof.
  unfold Dict.mem. destruct (Dict.get k d); split; congruence.
Qed.

Lemma is_empty_get k d : Dict.is_empty d = true -> Dict.get k d = None.
Proof. destruct d; [reflexivity|discriminate]. Qed.

Lemma get_In k v d : Dict.get k d = Some v -> In (k, v) d.
Proof.
  induction d as [|[k' v'] r IH]; simpl; [discriminate|].
  destruct (String.eqb k k') eqn:E; auto.
  apply String.eqb_eq in E. subst k'. intros [= ->]. now left.
Qed.

Lemma keys_set_present k v d :
  Dict.mem k d = true -> Dict.keys (Dict.set k v d) = Dict.keys d.
Proof.
  unfold Dict.mem.
  induction d as [|[k' v'] r IH]; simpl; [discriminate|].
  destruct (String.eqb k k') eqn:E; simpl; auto.
  intros H. now rewrite IH.
Qed.

(** [forallb] over the items passes through an assignment and a
    deletion. *)
Lemma forallb_set (p : string * V -> bool) k v d :
  (forall k', p (k', v) = true) ->
  forallb p d = true -> forallb p (Dict.set k v d) = true.
Proof.
  intros Hv. induction d as [|[k' v'] r IH]; simpl.
  - now rewrite Hv.
  - intros H. apply andb_true_iff in H as [H1 H2].
    destruct (String.eqb k k'); simpl.
    + now rewrite Hv, H2.
    + now rewrite H1, IH.
Qed.

Lemma forallb_del (p : string * V -> bool) k d :
  forallb p d = true -> forallb p (Dict.del k d) = true.
Proof.
  induction d as [|[k' v'] r IH]; simpl; auto.
  intros H. apply andb_true_iff in H as [H1 H2].
  destruct (String.eqb k k'); simpl; auto. now rewrite H1, IH.
Qed.

Lemma forallb_get (p : string * V -> bool) k v d :
  forallb p d = true -> Dict.get k d = Some v -> p (k, v) = true.
Proof.
  intros H G. apply get_In in G.
  rewrite forallb_forall in H. now apply H.
Qed.

(** Only the first item of a key can be reached: deleting the key of
    an assignment undoes the assignment of a new key. *)
Lemma is_empty_set k v d : Dict.is_empty (Dict.set k v d) = false.
Proof. destruct d as [|[k' v'] r]; simpl; [|destruct String.eqb]; auto. Qed.

End Facts.
End DictFacts.

(** ** Built-ins *)

Lemma int_str (n : Z) : int (str n) = Some n.
Proof.
  unfold int, str.
  pose proof (DecimalZ.of_to n) as H.
  destruct (Z.to_int n) as [d|d] eqn:E;
    (destruct d;
     [ simpl in *; now rewrite <- H
     | rewrite NilZero.isi by discriminate; cbn [option_map]; f_equal;
       exact H .. ]).
Qed.

Lemma str_inj (n m : Z) : str n = str m -> n = m.
Proof.
  intros H. pose proof (int_str n) as Hn.
  rewrite H, int_str in Hn. congruence.
Qed.

Lemma contains_In (x : Z) (l : list Z) : contains x l = true <-> In x l.
Proof.
  unfold contains. rewrite existsb_exists. split.
  - intros [y [Hy E]]. apply Z.eqb_eq in E. now subst.
  - intros H. exists x. split; auto. apply Z.eqb_refl.
Qed.

Lemma contains_app (x : Z) (l l' : list Z) :
  contains x (l ++ l') = contains x l || contains x l'.
Proof. apply existsb_app. Qed.

Lemma contains_remove_other (x y : Z) (l : list Z) :
  y <> x -> contains y (remove x l) = contains y l.
Proof.
  intros N. induction l as [|z r IH]; simpl; auto.
  destruct (Z.eqb x z) eqn:E; simpl.
  - apply Z.eqb_eq in E. subst z.
    apply Z.eqb_neq in N. now rewrite N.
  - now rewrite IH.
Qed.

Lemma contains_remove_same (x : Z) (l : list Z) :
  NoDup l -> contains x (remove x l) = false.
Proof.
  induction 1 as [|z r Hz Hr IH]; simpl; auto.
  destruct (Z.eqb x z) eqn:E; simpl.
  - apply Z.eqb_eq in E. subst z.
    destruct (contains x r) eqn:C; auto. apply contains_In in C. tauto.
  - now rewrite E, IH.
Qed.

Lemma NoDup_remove (x : Z) (l : list Z) : NoDup l -> NoDup (remove x l).
Proof.
  induction 1 as [|z r Hz Hr IH]; simpl; [constructor|].
  destruct (Z.eqb x z); auto. constructor; auto.
  intros H. apply Hz. clear -H.
  induction r as [|y r IH]; simpl in *; auto.
  destruct (Z.eqb x y); simpl in *; tauto.
Qed.

(** ** The scenarios of the specification, run on the model *)

Example str_730 : str 730 = "730". Proof. reflexivity. Qed.
Example str_0 : str 0 = "0". Proof. reflexivity. Qed.
Example str_neg : str (-42) = "-42". Proof. reflexivity. Qed.
Example int_730 : int "730" = Some 730. Proof. reflexivity. Qed.
Example utf8 : String.length "💰" = 4%nat. Proof. reflexivity. Qed.

Example track_then_list :
  get_tracked_games None None
    (snd (track_game WriteOk 730 "CS2" 1 9 fresh))
  = [{| summary_id := 730; summary_name := "CS2";
        summary_current_data := Snapshot.make None None false None |}].
Proof. reflexivity. Qed.

Example track_then_targets :
  get_notification_channels 730
    (snd (track_game WriteOk 730 "CS2" 1 9 fresh))
  = [Channel.make 1 [9]].
Proof. reflexivity. Qed.

Example first_price_is_silent :
  fst (update_game_data WriteOk "t1" 730 (Some "$9.99") None None None
         (snd (track_game WriteOk 730 "CS2" 1 9 fresh))) = [].
Proof. reflexivity. Qed.

Example untrack_last_watcher :
  untrack_game WriteOk 730 1 9 (snd (track_game WriteOk 730 "CS2" 1 9 fresh))
  = (true, {| tracked_games := []; disk := Some [] |}).
Proof. reflexivity. Qed.

(** ** Registration *)

Lemma tracked_games_save (w : write_outcome) (t : GameTracker) :
  tracked_games (_save_tracking_data w t) = tracked_games t.
Proof. now destruct w. Qed.

Lemma with_watchers_same (g : Game.t) :
  Game.with_watchers (Game.watchers g) g = g.
Proof. now destruct g. Qed.

(** [track_game] in closed form: the game (a new one if the key is
    missing) gets the pair added to its watchers and is stored under its
    key; the result is saved and [True] is returned. The [KeyError]
    branches are never taken. *)
Lemma track_game_eq (w : write_outcome) (game_id : Z) (game_name : string)
    (channel_id user_id : Z) (t : GameTracker) :
  let g :=
    match Dict.get (str game_id) (tracked_games t) with
    | Some g => g
    | None => new_game game_id game_name
    end in
  track_game w game_id game_name channel_id user_id t =
  (true,
   _save_tracking_data w
     (with_tracked_games
        (Dict.set (str game_id)
           (Game.with_watchers
              (add_watcher channel_id user_id (Game.watchers g)) g)
           (tracked_games t))
        t)).
Proof.
  unfold track_game, add_watcher, Dict.mem.
  destruct (Dict.get (str game_id) (tracked_games t)) as [g|] eqn:Hg; simpl.
  - rewrite Hg.
    destruct (Dict.get (str channel_id) (Game.watchers g)) as [us|] eqn:Hus;
      simpl.
    + rewrite Hus. destruct (contains user_id us); simpl; [|reflexivity].
      now rewrite (DictFacts.set_get_same _ _ _ Hus).
    + rewrite DictFacts.get_set_same. simpl.
      now rewrite DictFacts.set_set.
  - rewrite DictFacts.get_set_same. simpl. rewrite String.eqb_refl. simpl.
    now rewrite DictFacts.set_set.
Qed.

Lemma add_watcher_contains (channel_id user_id : Z) (ws : Dict.t (list Z)) :
  exists us,
    Dict.get (str channel_id) (add_watcher channel_id user_id ws) = Some us /\
    contains user_id us = true.
Proof.
  unfold add_watcher. rewrite DictFacts.get_set_same.
  eexists. split; [reflexivity|].
  set (us := match Dict.get (str channel_id) ws with
             | Some us => us
             | None => []
             end).
  destruct (contains user_id us) eqn:C; auto.
  rewrite contains_app. simpl. rewrite Z.eqb_refl. now rewrite orb_true_r.
Qed.

Lemma add_watcher_registered (channel_id user_id : Z) (ws : Dict.t (list Z))
    (us : list Z) :
  Dict.get (str channel_id) ws = Some us -> contains user_id us = true ->
  add_watcher channel_id user_id ws = ws.
Proof.
  intros Hus C. unfold add_watcher. rewrite Hus, C.
  now apply DictFacts.set_get_same.
Qed.

(** C1. Calling [track_game] twice with the same arguments leaves the
    registry as the first call left it, whatever the two file writes did:
    both calls return [True], the second inserts nothing, and so the
    game's watchers, name and snapshot are those of the first call. *)
Theorem track_game_idempotent (w1 w2 : write_outcome) (game_id : Z)
    (game_name : string) (channel_id user_id : Z) (t : GameTracker) :
  let once := track_game w1 game_id game_name channel_id user_id t in
  let twice :=
    track_game w2 game_id game_name channel_id user_id (snd once) in
  fst once = true /\ fst twice = true /\
  tracked_games (snd twice) = tracked_games (snd once).
Proof.
  intros once twice. subst twice once.
  rewrite (track_game_eq w1). cbn [fst snd].
  rewrite (track_game_eq w2). cbn [fst snd].
  repeat split.
  rewrite !tracked_games_save. cbn [with_tracked_games tracked_games].
  rewrite DictFacts.get_set_same. cbn [Game.with_watchers Game.watchers].
  destruct (add_watcher_contains channel_id user_id
              (Game.watchers
                 match Dict.get (str game_id) (tracked_games t) with
                 | Some g => g
                 | None => new_game game_id game_name
                 end)) as [us [Hus C]].
  rewrite (add_watcher_registered _ _ _ _ Hus C).
  rewrite DictFacts.set_set. reflexivity.
Qed.

(** ** A failed write *)

(** C2, as stated, fails: on the empty tracker, with a write that raises,
    [track_game 730 "CS2" 1 9] returns [True], not [False], and the game
    is in the registry afterwards. *)
Lemma track_game_failed_write_counterexample :
  let res := track_game (WriteFails None) 730 "CS2" 1 9 fresh in
  fst res = true /\
  tracked_games (snd res) <> tracked_games fresh /\
  watching (tracked_games (snd res)) 730 1 9 = true.
Proof. repeat split. discriminate. Qed.

(** C2, amended. [track_game] returns [True] whether or not the write of
    the data file succeeds, and the registry in memory is the same in both
    cases: the exception of a failed write is caught inside
    [_save_tracking_data]. Only the file differs: it holds the new
    registry after a successful write and what the failed write left
    otherwise. *)
Theorem track_game_ignores_write_failure (w : write_outcome) (game_id : Z)
    (game_name : string) (channel_id user_id : Z) (t : GameTracker) :
  let res := track_game w game_id game_name channel_id user_id t in
  fst res = true /\
  tracked_games (snd res) =
    tracked_games
      (snd (track_game WriteOk game_id game_name channel_id user_id t)) /\
  watching (tracked_games (snd res)) game_id channel_id user_id = true /\
  disk (snd res) =
    match w with
    | WriteOk => Some (tracked_games (snd res))
    | WriteFails residue => residue
    end.
Proof.
  intros res. subst res. rewrite !track_game_eq. cbn [fst snd].
  rewrite !tracked_games_save. repeat split.
  - unfold watching. cbn [with_tracked_games tracked_games].
    rewrite DictFacts.get_set_same. cbn [Game.with_watchers Game.watchers].
    destruct (add_watcher_contains channel_id user_id
                (Game.watchers
                   match Dict.get (str game_id) (tracked_games t) with
                   | Some g => g
                   | None => new_game game_id game_name
                   end)) as [us [Hus C]].
    now rewrite Hus.
  - now destruct w.
Qed.

(** ** The invariant of the store *)

Lemma del_set_same {V : Type} (k : string) (v : V) (d : Dict.t V) :
  Dict.del k (Dict.set k v d) = Dict.del k d.
Proof.
  induction d as [|[k' v'] r IH]; simpl.
  - now rewrite String.eqb_refl.
  - destruct (String.eqb k k') eqn:E; simpl; rewrite E; simpl; auto.
    now rewrite IH.
Qed.

Lemma game_ok_watched (g : Game.t) : game_ok g = true -> watched g.
Proof.
  unfold game_ok, watched. destruct (Game.watchers g) as [|[c us] ws]; simpl.
  - discriminate.
  - unfold channel_ok at 1. simpl. destruct us as [|u us]; [discriminate|].
    intros _. exists c, (u :: us), u.
    rewrite String.eqb_refl. split; [reflexivity|now left].
Qed.

Lemma registry_ok_invariant (r : registry) :
  registry_ok r = true -> store_invariant r.
Proof.
  intros H k. rewrite DictFacts.mem_get. split.
  - intros [g Hg]. exists g. split; [exact Hg|].
    apply game_ok_watched.
    exact (DictFacts.forallb_get (fun item => game_ok (snd item)) k g r H Hg).
  - intros [g [Hg _]]. eauto.
Qed.

Lemma registry_ok_get (r : registry) (k : string) (g : Game.t) :
  registry_ok r = true -> Dict.get k r = Some g -> game_ok g = true.
Proof.
  intros H Hg.
  exact (DictFacts.forallb_get (fun item => game_ok (snd item)) k g r H Hg).
Qed.

Lemma registry_ok_set (r : registry) (k : string) (g : Game.t) :
  game_ok g = true -> registry_ok r = true ->
  registry_ok (Dict.set k g r) = true.
Proof.
  intros Hg H. apply DictFacts.forallb_set; auto.
Qed.

Lemma add_watcher_ok (channel_id user_id : Z) (ws : Dict.t (list Z)) :
  forallb channel_ok ws = true ->
  negb (Dict.is_empty (add_watcher channel_id user_id ws)) &&
  forallb channel_ok (add_watcher channel_id user_id ws) = true.
Proof.
  intros H. unfold add_watcher.
  rewrite DictFacts.is_empty_set. simpl.
  apply DictFacts.forallb_set; auto.
  intros k'. unfold channel_ok. simpl.
  destruct (Dict.get (str channel_id) ws) as [us|] eqn:Hus.
  - destruct (contains user_id us) eqn:C.
    + destruct us; [discriminate|reflexivity].
    + destruct us; reflexivity.
  - reflexivity.
Qed.

Lemma track_game_ok (w : write_outcome) (game_id : Z) (game_name : string)
    (channel_id user_id : Z) (t : GameTracker) :
  registry_ok (tracked_games t) = true ->
  registry_ok
    (tracked_games
       (snd (track_game w game_id game_name channel_id user_id t))) = true.
Proof.
  intros H. rewrite track_game_eq. cbn [snd].
  rewrite tracked_games_save. cbn [with_tracked_games tracked_games].
  apply registry_ok_set; auto. unfold game_ok.
  cbn [Game.with_watchers Game.watchers]. apply add_watcher_ok.
  destruct (Dict.get (str game_id) (tracked_games t)) as [g|] eqn:Hg.
  - apply (registry_ok_get _ _ _ H) in Hg. unfold game_ok in Hg.
    now apply andb_true_iff in Hg.
  - reflexivity.
Qed.

Lemma untrack_game_ok (w : write_outcome) (game_id channel_id user_id : Z)
    (t : GameTracker) :
  registry_ok (tracked_games t) = true ->
  registry_ok
    (tracked_games (snd (untrack_game w game_id channel_id user_id t)))
  = true.
Proof.
  intros H. unfold untrack_game.
  destruct (Dict.get (str game_id) (tracked_games t)) as [g|] eqn:Hg; auto.
  destruct (Dict.get (str channel_id) (Game.watchers g)) as [us|] eqn:Hus;
    auto.
  destruct (contains user_id us) eqn:C; auto.
  cbn [snd]. rewrite tracked_games_save.
  cbn [with_tracked_games tracked_games].
  pose proof (registry_ok_get _ _ _ H Hg) as Ok. unfold game_ok in Ok.
  apply andb_true_iff in Ok as [_ Ok].
  set (ws := match remove user_id us with
             | [] => Dict.del (str channel_id)
                       (Dict.set (str channel_id) (remove user_id us)
                          (Game.watchers g))
             | _ :: _ => Dict.set (str channel_id) (remove user_id us)
                           (Game.watchers g)
             end).
  assert (Hws : forallb channel_ok ws = true).
  { subst ws. destruct (remove user_id us) as [|u' us'] eqn:R.
    - rewrite del_set_same. now apply DictFacts.forallb_del.
    - apply DictFacts.forallb_set; auto. }
  destruct (Dict.is_empty ws) eqn:E.
  - rewrite del_set_same. now apply DictFacts.forallb_del.
  - apply registry_ok_set; auto. unfold game_ok.
    cbn [Game.with_watchers Game.watchers]. now rewrite E, Hws.
Qed.

(** [update_game_data] on a tracked game, in closed form. *)
Lemma update_game_data_tracked (w : write_outcome) (now : string)
    (game_id : Z) (price release_date : option string)
    (preorder_status : option bool) (last_update : option string)
    (t : GameTracker) (g : Game.t) :
  Dict.get (str game_id) (tracked_games t) = Some g ->
  let st :=
    set_last_update last_update
      (check_preorder_status (Game.name g) preorder_status
         (check_release_date (Game.name g) release_date
            (check_price (Game.name g) price ([], Game.current_data g)))) in
  update_game_data w now game_id price release_date preorder_status
                   last_update t =
  (fst st,
   _save_tracking_data w
     (with_tracked_games
        (Dict.set (str game_id)
           (Game.with_last_check now (Game.with_current_data (snd st) g))
           (tracked_games t))
        t)).
Proof.
  intros Hg st. unfold update_game_data. rewrite Hg. fold st.
  now destruct st.
Qed.

Lemma update_game_data_untracked (w : write_outcome) (now : string)
    (game_id : Z) (price release_date : option string)
    (preorder_status : option bool) (last_update : option string)
    (t : GameTracker) :
  Dict.get (str game_id) (tracked_games t) = None ->
  update_game_data w now game_id price release_date preorder_status
                   last_update t = ([], t).
Proof. intros Hg. unfold update_game_data. now rewrite Hg. Qed.

Lemma update_game_data_ok (w : write_outcome) (now : string)
    (game_id : Z) (price release_date : option string)
    (preorder_status : option bool) (last_update : option string)
    (t : GameTracker) :
  registry_ok (tracked_games t) = true ->
  registry_ok
    (tracked_games
       (snd (update_game_data w now game_id price release_date
                              preorder_status last_update t))) = true.
Proof.
  intros H.
  destruct (Dict.get (str game_id) (tracked_games t)) as [g|] eqn:Hg.
  - rewrite (update_game_data_tracked _ _ _ _ _ _ _ _ _ Hg). cbn [snd].
    rewrite tracked_games_save. cbn [with_tracked_games tracked_games].
    apply registry_ok_set; auto.
    exact (registry_ok_get _ _ _ H Hg).
  - now rewrite update_game_data_untracked.
Qed.

(** C3. The store invariant (a key is in the store exactly when its game
    has a channel with a user) holds in every state in which no game is
    without a channel entry and no channel entry is empty; that form is
    kept by [track_game], [untrack_game] and [update_game_data], whatever
    their arguments and whatever the file write does
    ([get_tracked_games] and [get_notification_channels] only read the
    tracker). In particular, [untrack_game] on the only user of the only
    channel of a game returns [True] and leaves the game's key out of the
    store. *)
Theorem store_invariant_preserved (t : GameTracker)
    (H : registry_ok (tracked_games t) = true) :
  store_invariant (tracked_games t) /\
  (forall w game_id game_name channel_id user_id,
     let t' := snd (track_game w game_id game_name channel_id user_id t) in
     registry_ok (tracked_games t') = true /\
     store_invariant (tracked_games t')) /\
  (forall w game_id channel_id user_id,
     let t' := snd (untrack_game w game_id channel_id user_id t) in
     registry_ok (tracked_games t') = true /\
     store_invariant (tracked_games t')) /\
  (forall w now game_id price release_date preorder_status last_update,
     let t' := snd (update_game_data w now game_id price release_date
                                     preorder_status last_update t) in
     registry_ok (tracked_games t') = true /\
     store_invariant (tracked_games t')) /\
  (forall w game_id channel_id user_id g,
     Dict.get (str game_id) (tracked_games t) = Some g ->
     Game.watchers g = [(str channel_id, [user_id])] ->
     let res := untrack_game w game_id channel_id user_id t in
     fst res = true /\
     Dict.mem (str game_id) (tracked_games (snd res)) = false).
Proof.
  split; [now apply registry_ok_invariant|].
  split; [|split; [|split]].
  - intros. subst t'. split; [|apply registry_ok_invariant];
      now apply track_game_ok.
  - intros. subst t'. split; [|apply registry_ok_invariant];
      now apply untrack_game_ok.
  - intros. subst t'. split; [|apply registry_ok_invariant];
      now apply update_game_data_ok.
  - intros w game_id channel_id user_id g Hg Hws res. subst res.
    unfold untrack_game. rewrite Hg, Hws. simpl.
    rewrite String.eqb_refl. simpl. rewrite Z.eqb_refl. simpl.
    rewrite String.eqb_refl. simpl. split; [reflexivity|].
    rewrite tracked_games_save. simpl.
    apply DictFacts.mem_false. apply DictFacts.get_del_same.
Qed.

Lemma store_invariant_preserved_witness :
  let t := snd (track_game WriteOk 730 "CS2" 1 9 fresh) in
  registry_ok (tracked_games t) = true /\
  store_invariant (tracked_games t) /\
  Dict.mem (str 730)
    (tracked_games (snd (untrack_game WriteOk 730 1 9 t))) = false.
Proof.
  split; [reflexivity|].
  pose proof (store_invariant_preserved
                (snd (track_game WriteOk 730 "CS2" 1 9 fresh)) eq_refl)
    as [Inv [_ [_ [_ Cascade]]]].
  split; [exact Inv|].
  exact (proj2 (Cascade WriteOk 730 1 9 _ eq_refl eq_refl)).
Defined.

Lemma reachable_registry_ok (t : GameTracker) :
  reachable t -> registry_ok (tracked_games t) = true.
Proof.
  induction 1.
  - reflexivity.
  - now apply track_game_ok.
  - now apply untrack_game_ok.
  - now apply update_game_data_ok.
Qed.

(** ** Removal *)

Lemma distinct_NoDup (l : list Z) : distinct l = true <-> NoDup l.
Proof.
  induction l as [|x r IH]; simpl.
  - split; [constructor|reflexivity].
  - rewrite andb_true_iff, negb_true_iff, IH. split.
    + intros [C D]. constructor; auto.
      intros I. apply contains_In in I. congruence.
    + intros N. inversion N as [|? ? Hx Hr]; subst. split; auto.
      destruct (contains x r) eqn:C; auto. apply contains_In in C. tauto.
Qed.

Lemma watching_true (r : registry) (game_id channel_id user_id : Z) :
  watching r game_id channel_id user_id = true ->
  exists g us,
    Dict.get (str game_id) r = Some g /\
    Dict.get (str channel_id) (Game.watchers g) = Some us /\
    contains user_id us = true.
Proof.
  unfold watching.
  destruct (Dict.get (str game_id) r) as [g|]; [|discriminate].
  destruct (Dict.get (str channel_id) (Game.watchers g)) as [us|] eqn:Hus;
    [|discriminate].
  intros C. exists g, us. auto.
Qed.

(** Without the pair [untrack_game] returns [False] and does nothing. *)
Lemma untrack_game_unregistered (w : write_outcome)
    (game_id channel_id user_id : Z) (t : GameTracker) :
  watching (tracked_games t) game_id channel_id user_id = false ->
  untrack_game w game_id channel_id user_id t = (false, t).
Proof.
  unfold watching, untrack_game.
  destruct (Dict.get (str game_id) (tracked_games t)) as [g|]; auto.
  destruct (Dict.get (str channel_id) (Game.watchers g)) as [us|]; auto.
  now intros ->.
Qed.

(** The registry [untrack_game] leaves when the pair is registered. *)
Lemma untrack_game_registered (w : write_outcome)
    (game_id channel_id user_id : Z) (t : GameTracker) (g : Game.t)
    (us : list Z) :
  Dict.get (str game_id) (tracked_games t) = Some g ->
  Dict.get (str channel_id) (Game.watchers g) = Some us ->
  contains user_id us = true ->
  let ws :=
    match remove user_id us with
    | [] => Dict.del (str channel_id) (Game.watchers g)
    | _ :: _ =>
        Dict.set (str channel_id) (remove user_id us) (Game.watchers g)
    end in
  untrack_game w game_id channel_id user_id t =
  (true,
   _save_tracking_data w
     (with_tracked_games
        (if Dict.is_empty ws
         then Dict.del (str game_id) (tracked_games t)
         else Dict.set (str game_id) (Game.with_watchers ws g)
                       (tracked_games t))
        t)).
Proof.
  intros Hg Hus C ws. unfold untrack_game. rewrite Hg, Hus, C.
  subst ws. destruct (remove user_id us) as [|u' us'];
    rewrite ?del_set_same; destruct (Dict.is_empty _);
    rewrite ?del_set_same; reflexivity.
Qed.

(** Who watches the channel after the removal: the users of the list with
    the first occurrence of [user_id] dropped. *)
Lemma untrack_game_channel (w : write_outcome)
    (game_id channel_id user_id : Z) (t : GameTracker) (g : Game.t)
    (us : list Z) (u : Z) :
  Dict.get (str game_id) (tracked_games t) = Some g ->
  Dict.get (str channel_id) (Game.watchers g) = Some us ->
  contains user_id us = true ->
  watching (tracked_games (snd (untrack_game w game_id channel_id user_id t)))
           game_id channel_id u
  = contains u (remove user_id us).
Proof.
  intros Hg Hus C.
  rewrite (untrack_game_registered w _ _ _ _ _ _ Hg Hus C). cbn [snd].
  rewrite tracked_games_save. cbn [with_tracked_games tracked_games].
  unfold watching.
  destruct (remove user_id us) as [|u' us'] eqn:R.
  - destruct (Dict.is_empty _).
    + now rewrite DictFacts.get_del_same.
    + rewrite DictFacts.get_set_same.
      cbn [Game.with_watchers Game.watchers].
      now rewrite DictFacts.get_del_same.
  - rewrite DictFacts.is_empty_set, DictFacts.get_set_same.
    cbn [Game.with_watchers Game.watchers].
    now rewrite DictFacts.get_set_same.
Qed.

(** The other channels and the other games keep their watchers. *)
Lemma untrack_game_frame (w : write_outcome)
    (game_id channel_id user_id : Z) (t : GameTracker)
    (game_id' channel_id' u : Z) :
  (game_id', channel_id') <> (game_id, channel_id) ->
  watching (tracked_games (snd (untrack_game w game_id channel_id user_id t)))
           game_id' channel_id' u
  = watching (tracked_games t) game_id' channel_id' u.
Proof.
  intros N.
  destruct (watching (tracked_games t) game_id channel_id user_id) eqn:W;
    [|now rewrite untrack_game_unregistered].
  apply watching_true in W as [g [us [Hg [Hus C]]]].
  rewrite (untrack_game_registered w _ _ _ _ _ _ Hg Hus C). cbn [snd].
  rewrite tracked_games_save. cbn [with_tracked_games tracked_games].
  set (ws := match remove user_id us with
             | [] => Dict.del (str channel_id) (Game.watchers g)
             | _ :: _ => Dict.set (str channel_id) (remove user_id us)
                           (Game.watchers g)
             end).
  unfold watching.
  destruct (Z.eq_dec game_id' game_id) as [->|Ng].
  - assert (Nc : str channel_id' <> str channel_id).
    { intros E. apply str_inj in E. congruence. }
    assert (Hws : Dict.get (str channel_id') ws
                  = Dict.get (str channel_id') (Game.watchers g)).
    { subst ws. destruct (remove user_id us).
      - now apply DictFacts.get_del_other.
      - now apply DictFacts.get_set_other. }
    rewrite Hg. destruct (Dict.is_empty ws) eqn:E.
    + rewrite DictFacts.get_del_same, <- Hws.
      now rewrite (DictFacts.is_empty_get _ _ E).
    + rewrite DictFacts.get_set_same.
      cbn [Game.with_watchers Game.watchers]. now rewrite Hws.
  - assert (Nk : str game_id' <> str game_id).
    { intros E. now apply str_inj in E. }
    destruct (Dict.is_empty ws).
    + now rewrite DictFacts.get_del_other.
    + now rewrite DictFacts.get_set_other.
Qed.

(** C4. [untrack_game] returns [False] and leaves the tracker as it is
    when the game is not tracked, when the game has no entry for the
    channel, and when the user is not in the channel's list. When the user
    is in the list it returns [True]; the user is then no longer a watcher
    of the channel (the list being a set: it held the user once), every
    other user of the channel still is, and the watchers of the other
    channels and games are the same as before. *)
Theorem untrack_game_correct (w : write_outcome)
    (game_id channel_id user_id : Z) (t : GameTracker) :
  let r := tracked_games t in
  let res := untrack_game w game_id channel_id user_id t in
  (Dict.get (str game_id) r = None -> res = (false, t)) /\
  (forall g,
     Dict.get (str game_id) r = Some g ->
     Dict.get (str channel_id) (Game.watchers g) = None ->
     res = (false, t)) /\
  (forall g us,
     Dict.get (str game_id) r = Some g ->
     Dict.get (str channel_id) (Game.watchers g) = Some us ->
     contains user_id us = false ->
     res = (false, t)) /\
  (forall g us,
     Dict.get (str game_id) r = Some g ->
     Dict.get (str channel_id) (Game.watchers g) = Some us ->
     contains user_id us = true ->
     fst res = true /\
     (distinct us = true ->
      watching (tracked_games (snd res)) game_id channel_id user_id = false) /\
     (forall u,
        u <> user_id ->
        watching (tracked_games (snd res)) game_id channel_id u
        = watching r game_id channel_id u) /\
     (forall game_id' channel_id' u,
        (game_id', channel_id') <> (game_id, channel_id) ->
        watching (tracked_games (snd res)) game_id' channel_id' u
        = watching r game_id' channel_id' u)).
Proof.
  intros r res. subst r res.
  split; [|split; [|split]].
  - intros Hg. apply untrack_game_unregistered. unfold watching.
    now rewrite Hg.
  - intros g Hg Hc. apply untrack_game_unregistered. unfold watching.
    now rewrite Hg, Hc.
  - intros g us Hg Hus C. apply untrack_game_unregistered. unfold watching.
    now rewrite Hg, Hus.
  - intros g us Hg Hus C. split; [|split; [|split]].
    + now rewrite (untrack_game_registered w _ _ _ _ _ _ Hg Hus C).
    + intros D. rewrite (untrack_game_channel w _ _ _ _ _ _ _ Hg Hus C).
      apply contains_remove_same. now apply distinct_NoDup.
    + intros u Nu. rewrite (untrack_game_channel w _ _ _ _ _ _ _ Hg Hus C).
      unfold watching. rewrite Hg, Hus. now apply contains_remove_other.
    + intros. now apply untrack_game_frame.
Qed.

Lemma untrack_game_correct_witness :
  let t := snd (track_game WriteOk 730 "CS2" 1 10
                  (snd (track_game WriteOk 730 "CS2" 1 9 fresh))) in
  let res := untrack_game WriteOk 730 1 9 t in
  fst res = true /\
  watching (tracked_games (snd res)) 730 1 9 = false /\
  watching (tracked_games (snd res)) 730 1 10 = true /\
  untrack_game WriteOk 730 2 9 t = (false, t).
Proof.
  intros t res.
  destruct (untrack_game_correct WriteOk 730 1 9 t)
    as [_ [_ [_ Present]]].
  destruct (Present (Game.with_watchers [("1", [9; 10])] (new_game 730 "CS2"))
                    [9; 10] eq_refl eq_refl eq_refl)
    as [Ret [Gone [Others _]]].
  destruct (untrack_game_correct WriteOk 730 2 9 t) as [_ [NoChannel _]].
  split; [exact Ret|]. split; [exact (Gone eq_refl)|].
  split.
  - unfold res. rewrite (Others 10); [reflexivity|discriminate].
  - exact (NoChannel _ eq_refl eq_refl).
Defined.

(** The lists of users stay duplicate-free. *)
Lemma distinct_app_new (u : Z) (us : list Z) :
  distinct us = true -> contains u us = false ->
  distinct (us ++ [u]) = true.
Proof.
  induction us as [|x r IH]; simpl; auto.
  rewrite !andb_true_iff, !negb_true_iff, orb_false_iff.
  intros [Cx D] [Nx Cu]. split.
  - rewrite contains_app, Cx. simpl. rewrite orb_false_r.
    rewrite Z.eqb_sym. exact Nx.
  - now apply IH.
Qed.

Lemma distinct_remove (u : Z) (us : list Z) :
  distinct us = true -> distinct (remove u us) = true.
Proof.
  rewrite !distinct_NoDup. apply NoDup_remove.
Qed.

Lemma users_distinct_get (r : registry) (game_key channel_key : string)
    (g : Game.t) (us : list Z) :
  users_distinct r = true ->
  Dict.get game_key r = Some g ->
  Dict.get channel_key (Game.watchers g) = Some us ->
  distinct us = true.
Proof.
  intros H Hg Hus.
  pose proof (DictFacts.forallb_get _ _ _ _ H Hg) as Hws. simpl in Hws.
  exact (DictFacts.forallb_get _ _ _ _ Hws Hus).
Qed.

Lemma reachable_users_distinct (t : GameTracker) :
  reachable t -> users_distinct (tracked_games t) = true.
Proof.
  intros Rt.
  induction Rt as [|w game_id game_name channel_id user_id t0 R IH
                   |w game_id channel_id user_id t0 R IH
                   |w now game_id price release_date preorder_status
                      last_update t0 R IH];
    try rename t0 into t.
  - reflexivity.
  - rewrite track_game_eq. cbn [snd]. rewrite tracked_games_save.
    cbn [with_tracked_games tracked_games].
    apply DictFacts.forallb_set; auto. intros ?.
    cbn [snd Game.with_watchers Game.watchers].
    set (g := match Dict.get (str game_id) (tracked_games t) with
              | Some g => g
              | None => new_game game_id game_name
              end).
    assert (Hws : forallb (fun entry => distinct (snd entry))
                          (Game.watchers g) = true).
    { subst g.
      destruct (Dict.get (str game_id) (tracked_games t)) as [g|] eqn:Hg;
        [|reflexivity].
      exact (DictFacts.forallb_get _ _ _ _ IH Hg). }
    unfold add_watcher. apply DictFacts.forallb_set; auto. intros ?.
    cbn [snd].
    destruct (Dict.get (str channel_id) (Game.watchers g)) as [us|] eqn:Hus.
    + pose proof (DictFacts.forallb_get _ _ _ _ Hws Hus) as D. simpl in D.
      destruct (contains user_id us) eqn:C; auto.
      now apply distinct_app_new.
    + reflexivity.
  - destruct (watching (tracked_games t) game_id channel_id user_id) eqn:W;
      [|now rewrite untrack_game_unregistered].
    apply watching_true in W as [g [us [Hg [Hus C]]]].
    rewrite (untrack_game_registered w _ _ _ _ _ _ Hg Hus C). cbn [snd].
    rewrite tracked_games_save. cbn [with_tracked_games tracked_games].
    pose proof (DictFacts.forallb_get _ _ _ _ IH Hg) as Hws. simpl in Hws.
    pose proof (DictFacts.forallb_get _ _ _ _ Hws Hus) as D. simpl in D.
    destruct (Dict.is_empty _); [now apply DictFacts.forallb_del|].
    apply DictFacts.forallb_set; auto. intros ?.
    cbn [snd Game.with_watchers Game.watchers].
    destruct (remove user_id us) as [|u' us'] eqn:Rm.
    + now apply DictFacts.forallb_del.
    + apply DictFacts.forallb_set; auto. intros ?. cbn [snd].
      rewrite <- Rm. now apply distinct_remove.
  - destruct (Dict.get (str game_id) (tracked_games t)) as [g|] eqn:Hg.
    + rewrite (update_game_data_tracked _ _ _ _ _ _ _ _ _ Hg). cbn [snd].
      rewrite tracked_games_save. cbn [with_tracked_games tracked_games].
      apply DictFacts.forallb_set; auto. intros ?.
      exact (DictFacts.forallb_get _ _ _ _ IH Hg).
    + now rewrite update_game_data_untracked.
Qed.

(** ** Change detection *)

Lemma differs_None (a : string) : differs a None = true.
Proof. reflexivity. Qed.

Lemma differs_Some (a b : string) : a <> b -> differs a (Some b) = true.
Proof.
  intros N. unfold differs. apply String.eqb_neq in N. now rewrite N.
Qed.

(** The game stored by [track_game] under a key that was not tracked. *)
Lemma track_game_new (w : write_outcome) (game_id : Z) (game_name : string)
    (channel_id user_id : Z) (t : GameTracker) :
  Dict.get (str game_id) (tracked_games t) = None ->
  Dict.get (str game_id)
    (tracked_games (snd (track_game w game_id game_name channel_id user_id t)))
  = Some (Game.make game_id game_name [(str channel_id, [user_id])] None
            (Snapshot.make None None false None)).
Proof.
  intros Hg. rewrite track_game_eq, Hg. cbn [snd].
  rewrite tracked_games_save. cbn [with_tracked_games tracked_games].
  now rewrite DictFacts.get_set_same.
Qed.

(** What [update_game_data] returns and stores for a tracked game. *)
Lemma update_game_data_result (w : write_outcome) (now : string)
    (game_id : Z) (price release_date : option string)
    (preorder_status : option bool) (last_update : option string)
    (t : GameTracker) (g : Game.t) :
  Dict.get (str game_id) (tracked_games t) = Some g ->
  let st :=
    set_last_update last_update
      (check_preorder_status (Game.name g) preorder_status
         (check_release_date (Game.name g) release_date
            (check_price (Game.name g) price ([], Game.current_data g)))) in
  let res := update_game_data w now game_id price release_date
                              preorder_status last_update t in
  fst res = fst st /\
  Dict.get (str game_id) (tracked_games (snd res))
  = Some (Game.with_last_check now (Game.with_current_data (snd st) g)).
Proof.
  intros Hg st res. subst res.
  rewrite (update_game_data_tracked _ _ _ _ _ _ _ _ _ Hg). fold st.
  cbn [fst snd]. split; [reflexivity|].
  rewrite tracked_games_save. cbn [with_tracked_games tracked_games].
  apply DictFacts.get_set_same.
Qed.



Example scenario_price_message :
  price_message "CS2" "$9.99" "$19.99"
  = String.concat newline
      ["💰 Price Update: CS2"; "Previous: $9.99"; "New: $19.99"].
Proof. reflexivity. Qed.

(** C6. On a game that has just been tracked for the first time (stored
    [preorder_status] is [False]), an update with [preorder_status=True]
    returns exactly one notification, of type [preorder], and stores
    [True]; this holds whatever price, release date and [last_update] come
    with it, since those two are first observations and stay silent. *)
Theorem preorder_fires_from_default (w0 w1 : write_outcome) (now : string)
    (game_id : Z) (game_name : string) (channel_id user_id : Z)
    (t : GameTracker) (price release_date last_update : option string) :
  Dict.get (str game_id) (tracked_games t) = None ->
  let t0 := snd (track_game w0 game_id game_name channel_id user_id t) in
  let res := update_game_data w1 now game_id price release_date (Some true)
                              last_update t0 in
  option_map Snapshot.preorder_status (stored (tracked_games t0) game_id)
  = Some false /\
  fst res = [{| type := "preorder";
                message := preorder_message game_name true |}] /\
  option_map Snapshot.preorder_status (stored (tracked_games (snd res)) game_id)
  = Some true.
Proof.
  intros Hg t0 res.
  pose proof (track_game_new w0 game_id game_name channel_id user_id t Hg)
    as H0. fold t0 in H0.
  destruct (update_game_data_result w1 now game_id price release_date
              (Some true) last_update t0 _ H0) as [E G].
  fold res in E, G. unfold stored. rewrite H0, E, G.
  destruct price, release_date, last_update; repeat split.
Qed.

Lemma preorder_fires_from_default_witness :
  let t0 := snd (track_game WriteOk 730 "CS2" 1 9 fresh) in
  fst (update_game_data WriteOk "2024-01-01T00:00:00" 730 None None
                        (Some true) None t0)
  = [{| type := "preorder"; message := preorder_message "CS2" true |}].
Proof.
  intros t0.
  exact (proj1 (proj2 (preorder_fires_from_default
                         WriteOk WriteOk "2024-01-01T00:00:00" 730 "CS2" 1 9
                         fresh None None None eq_refl))).
Defined.

(** C7. For a tracked game with a stored price and a stored release date,
    an update in which the price, the release date and the pre-order
    status all differ from the stored ones returns exactly three
    notifications, in the order [price], [release_date], [preorder]. *)
Theorem notifications_in_fixed_order (w : write_outcome) (now : string)
    (game_id : Z) (t : GameTracker) (g : Game.t)
    (old_price old_date price release_date : string)
    (preorder_status : bool) (last_update : option string) :
  Dict.get (str game_id) (tracked_games t) = Some g ->
  Snapshot.price (Game.current_data g) = Some old_price ->
  Snapshot.release_date (Game.current_data g) = Some old_date ->
  price <> old_price ->
  release_date <> old_date ->
  preorder_status <> Snapshot.preorder_status (Game.current_data g) ->
  fst (update_game_data w now game_id (Some price) (Some release_date)
                        (Some preorder_status) last_update t)
  = [{| type := "price";
        message := price_message (Game.name g) old_price price |};
     {| type := "release_date";
        message :=
          release_date_message (Game.name g) old_date release_date |};
     {| type := "preorder";
        message := preorder_message (Game.name g) preorder_status |}].
Proof.
  intros Hg Hp Hd Np Nd Nb.
  destruct (update_game_data_result w now game_id (Some price)
              (Some release_date) (Some preorder_status) last_update t g Hg)
    as [E _].
  rewrite E. clear E.
  destruct (Game.current_data g) as [p d b u]. simpl in *. subst p d.
  apply String.eqb_neq in Np, Nd.
  simpl. rewrite Np. simpl. rewrite Nd. simpl.
  assert (Hb : Bool.eqb preorder_status b = false).
  { destruct preorder_status, b; auto; congruence. }
  rewrite Hb. simpl. now destruct last_update.
Qed.

Lemma notifications_in_fixed_order_witness :
  let t0 := snd (track_game WriteOk 730 "CS2" 1 9 fresh) in
  let t1 :=
    snd (update_game_data WriteOk "2024-01-01T00:00:00" 730
           (Some "$9.99") (Some "Jan 2025") None None t0) in
  map type
    (fst (update_game_data WriteOk "2024-01-01T00:30:00" 730
            (Some "$19.99") (Some "Feb 2025") (Some true) None t1))
  = ["price"; "release_date"; "preorder"].
Proof.
  intros t0 t1.
  rewrite (notifications_in_fixed_order
             WriteOk "2024-01-01T00:30:00" 730 t1
             (Game.make 730 "CS2" [("1", [9])] (Some "2024-01-01T00:00:00")
                (Snapshot.make (Some "$9.99") (Some "Jan 2025") false None))
             "$9.99" "Jan 2025" "$19.99" "Feb 2025" true None
             eq_refl eq_refl eq_refl);
    [reflexivity|discriminate..].
Defined.

(** In every update the notifications come in that order: their types
    are a selection of [price], [release_date], [preorder], in this
    order. *)
Lemma notification_types_ordered (w : write_outcome) (now : string)
    (game_id : Z) (price release_date : option string)
    (preorder_status : option bool) (last_update : option string)
    (t : GameTracker) :
  exists p d b : bool,
    map type
      (fst (update_game_data w now game_id price release_date
                             preorder_status last_update t))
    = (if p then ["price"] else []) ++
      (if d then ["release_date"] else []) ++
      (if b then ["preorder"] else []).
Proof.
  destruct (Dict.get (str game_id) (tracked_games t)) as [g|] eqn:Hg.
  - destruct (update_game_data_result w now game_id price release_date
                preorder_status last_update t g Hg) as [E _].
    rewrite E. clear E.
    destruct (Game.current_data g) as [cp cd cb cu].
    unfold check_price. cbn [Snapshot.price].
    destruct price as [p|];
      [destruct (differs p cp); [destruct cp|]|];
      unfold check_release_date;
      cbn [Snapshot.release_date Snapshot.with_price];
      (destruct release_date as [d|];
       [destruct (differs d cd); [destruct cd|]|]);
      unfold check_preorder_status;
      cbn [Snapshot.preorder_status Snapshot.with_price
           Snapshot.with_release_date Snapshot.release_date Snapshot.price];
      (destruct preorder_status as [b|];
       [destruct (negb (Bool.eqb b cb))|]);
      destruct last_update; cbn;
      first [ now exists true, true, true | now exists true, true, false
            | now exists true, false, true | now exists true, false, false
            | now exists false, true, true | now exists false, true, false
            | now exists false, false, true | now exists false, false, false ].
  - rewrite update_game_data_untracked by exact Hg.
    now exists false, false, false.
Qed.

(** ** Unknown games *)

(** C8. For a game that is not tracked, [update_game_data] returns the
    empty list and the tracker it was given, registry and file alike,
    whatever a write would have done (so nothing is written, no field and
    no [last_check] is set), and [get_notification_channels] returns the
    empty list. *)
Theorem unknown_game_is_empty (w : write_outcome) (now : string)
    (game_id : Z) (price release_date : option string)
    (preorder_status : option bool) (last_update : option string)
    (t : GameTracker) :
  Dict.mem (str game_id) (tracked_games t) = false ->
  update_game_data w now game_id price release_date preorder_status
                   last_update t = ([], t) /\
  get_notification_channels game_id t = [].
Proof.
  intros M. apply DictFacts.mem_false in M. split.
  - now apply update_game_data_untracked.
  - unfold get_notification_channels. now rewrite M.
Qed.

Lemma unknown_game_is_empty_witness :
  let t := snd (track_game WriteOk 730 "CS2" 1 9 fresh) in
  update_game_data (WriteFails None) "2024-01-01T00:00:00" 440
                   (Some "$9.99") (Some "Jan 2025") (Some true)
                   (Some "2024-01-01T00:00:00") t = ([], t) /\
  get_notification_channels 440 t = [].
Proof.
  intros t.
  exact (unknown_game_is_empty (WriteFails None) "2024-01-01T00:00:00" 440
           (Some "$9.99") (Some "Jan 2025") (Some true)
           (Some "2024-01-01T00:00:00") t eq_refl).
Defined.

(** ** Listing *)

(** C9. Without a channel, [get_tracked_games] ignores the user: it
    returns the summaries of all tracked games, as with no filter. *)
Theorem user_filter_needs_channel (user_id : Z) (t : GameTracker) :
  get_tracked_games None (Some user_id) t = get_tracked_games None None t /\
  get_tracked_games None (Some user_id) t
  = map (fun item => summary_of (snd item)) (tracked_games t).
Proof.
  unfold get_tracked_games. cbn [listed].
  assert (E : forall r : registry, filter (fun _ => true) r = r).
  { induction r as [|x r IH]; simpl; now rewrite ?IH. }
  now rewrite E.
Qed.

(** With a channel the user does filter. *)
Example user_filter_with_channel :
  let t := snd (track_game WriteOk 730 "CS2" 1 9 fresh) in
  get_tracked_games (Some 1) (Some 10) t = [] /\
  get_tracked_games None (Some 10) t = get_tracked_games None None t /\
  get_tracked_games None None t <> [].
Proof. repeat split. discriminate. Qed.

(** ** What an update leaves alone *)

(** C10. For a tracked game, [update_game_data] stores under the game's
    key a game with the same [id], [name] and [watchers]; every other key
    keeps its game, and the keys and their order are unchanged. So only
    [current_data] and [last_check] of that game can differ. *)
Theorem update_game_data_frame (w : write_outcome) (now : string)
    (game_id : Z) (price release_date : option string)
    (preorder_status : option bool) (last_update : option string)
    (t : GameTracker) (g : Game.t) :
  Dict.get (str game_id) (tracked_games t) = Some g ->
  let r' :=
    tracked_games
      (snd (update_game_data w now game_id price release_date
                             preorder_status last_update t)) in
  (exists g',
     Dict.get (str game_id) r' = Some g' /\
     Game.id g' = Game.id g /\
     Game.name g' = Game.name g /\
     Game.watchers g' = Game.watchers g /\
     Game.last_check g' = Some now) /\
  (forall key,
     key <> str game_id ->
     Dict.get key r' = Dict.get key (tracked_games t)) /\
  (forall other, other <> game_id ->
     Dict.get (str other) r' = Dict.get (str other) (tracked_games t)) /\
  Dict.keys r' = Dict.keys (tracked_games t).
Proof.
  intros Hg r'. subst r'.
  rewrite (update_game_data_tracked _ _ _ _ _ _ _ _ _ Hg). cbn [snd].
  rewrite tracked_games_save. cbn [with_tracked_games tracked_games].
  split; [|split; [|split]].
  - rewrite DictFacts.get_set_same. eexists. split; [reflexivity|].
    repeat split.
  - intros key N. now apply DictFacts.get_set_other.
  - intros other N. apply DictFacts.get_set_other.
    intros E. now apply str_inj in E.
  - apply DictFacts.keys_set_present. apply DictFacts.mem_get. eauto.
Qed.

Lemma update_game_data_frame_witness :
  let t := snd (track_game WriteOk 440 "TF2" 2 9
                  (snd (track_game WriteOk 730 "CS2" 1 9 fresh))) in
  let r' :=
    tracked_games
      (snd (update_game_data WriteOk "2024-01-01T00:00:00" 730
              (Some "$9.99") None (Some true) None t)) in
  Dict.get (str 440) r' = Dict.get (str 440) (tracked_games t) /\
  Dict.keys r' = ["730"; "440"].
Proof.
  intros t r'.
  destruct (update_game_data_frame WriteOk "2024-01-01T00:00:00" 730
              (Some "$9.99") None (Some true) None t
              (Game.make 730 "CS2" [("1", [9])] None
                 (Snapshot.make None None false None)) eq_refl)
    as [_ [_ [Others Keys]]].
  split.
  - apply Others. discriminate.
  - exact Keys.
Defined.

(** * Further properties of the tracker *)

(** ** Keys *)

Lemma existsb_keys_get {V : Type} (k : string) (d : Dict.t V) :
  existsb (String.eqb k) (Dict.keys d) = Dict.mem k d.
Proof.
  unfold Dict.mem. induction d as [|[k' v] r IH]; simpl; auto.
  destruct (String.eqb k k'); auto.
Qed.

Lemma keys_set_absent {V : Type} (k : string) (v : V) (d : Dict.t V) :
  Dict.mem k d = false -> Dict.keys (Dict.set k v d) = Dict.keys d ++ [k].
Proof.
  unfold Dict.mem. induction d as [|[k' v'] r IH]; simpl; auto.
  destruct (String.eqb k k') eqn:E; [discriminate|].
  intros H. simpl. now rewrite IH.
Qed.

Lemma unique_app_new (k : string) (keys : list string) :
  unique keys = true -> existsb (String.eqb k) keys = false ->
  unique (keys ++ [k]) = true.
Proof.
  induction keys as [|x r IH]; simpl; auto.
  rewrite !andb_true_iff, !negb_true_iff, orb_false_iff.
  intros [Hx Hr] [Nx Nr]. split; [|now apply IH].
  rewrite existsb_app, Hx. simpl. rewrite String.eqb_sym, Nx. reflexivity.
Qed.

Lemma unique_set {V : Type} (k : string) (v : V) (d : Dict.t V) :
  unique (Dict.keys d) = true -> unique (Dict.keys (Dict.set k v d)) = true.
Proof.
  intros U. destruct (Dict.mem k d) eqn:M.
  - now rewrite DictFacts.keys_set_present.
  - rewrite keys_set_absent by exact M. apply unique_app_new; auto.
    now rewrite existsb_keys_get.
Qed.

Lemma unique_del {V : Type} (k : string) (d : Dict.t V) :
  unique (Dict.keys d) = true -> unique (Dict.keys (Dict.del k d)) = true.
Proof.
  induction d as [|[k' v] r IH]; simpl; auto.
  rewrite andb_true_iff, negb_true_iff. intros [N U].
  destruct (String.eqb k k') eqn:E; simpl; auto.
  rewrite IH by exact U. rewrite andb_true_r, negb_true_iff.
  rewrite existsb_keys_get in *.
  apply DictFacts.mem_false. apply DictFacts.mem_false in N.
  rewrite DictFacts.get_del_other; auto.
  intros ->. now rewrite String.eqb_refl in E.
Qed.

Lemma unique_In_get {V : Type} (k : string) (v : V) (d : Dict.t V) :
  unique (Dict.keys d) = true -> In (k, v) d -> Dict.get k d = Some v.
Proof.
  induction d as [|[k' v'] r IH]; simpl; [tauto|].
  rewrite andb_true_iff, negb_true_iff. intros [N U] [E|I].
  - injection E as -> ->. now rewrite String.eqb_refl.
  - destruct (String.eqb k k') eqn:E; [|now apply IH].
    apply String.eqb_eq in E. subst k'.
    rewrite existsb_keys_get in N. apply DictFacts.mem_false in N.
    rewrite (IH U I) in N. discriminate.
Qed.

(** An assignment keeps a property of the items when the new item has
    it. *)
Lemma forallb_set_item {V : Type} (p : string * V -> bool) (k : string)
    (v : V) (d : Dict.t V) :
  p (k, v) = true -> forallb p d = true ->
  forallb p (Dict.set k v d) = true.
Proof.
  intros Hv. induction d as [|[k' v'] r IH]; simpl.
  - now rewrite Hv.
  - intros H. apply andb_true_iff in H as [H1 H2].
    destruct (String.eqb k k') eqn:E; simpl.
    + apply String.eqb_eq in E. subst k'. now rewrite Hv, H2.
    + now rewrite H1, IH.
Qed.

Lemma del_absent {V : Type} (k : string) (d : Dict.t V) :
  Dict.get k d = None -> Dict.del k d = d.
Proof.
  induction d as [|[k' v] r IH]; simpl; auto.
  destruct (String.eqb k k') eqn:E; [discriminate|].
  intros H. simpl. now rewrite IH.
Qed.

Lemma canonical_str (n : Z) : canonical (str n) = true.
Proof. unfold canonical. rewrite int_str. apply String.eqb_refl. Qed.

Lemma well_keyed_get (r : registry) (key : string) (g : Game.t) :
  well_keyed r = true -> Dict.get key r = Some g ->
  game_keyed (key, g) = true.
Proof.
  unfold well_keyed. rewrite andb_true_iff. intros [_ H] Hg.
  exact (DictFacts.forallb_get _ _ _ _ H Hg).
Qed.

Lemma well_keyed_set (r : registry) (key : string) (g : Game.t) :
  game_keyed (key, g) = true -> well_keyed r = true ->
  well_keyed (Dict.set key g r) = true.
Proof.
  unfold well_keyed. rewrite !andb_true_iff. intros Hg [U H]. split.
  - now apply unique_set.
  - now apply forallb_set_item.
Qed.

Lemma well_keyed_del (r : registry) (key : string) :
  well_keyed r = true -> well_keyed (Dict.del key r) = true.
Proof.
  unfold well_keyed. rewrite !andb_true_iff. intros [U H]. split.
  - now apply unique_del.
  - now apply DictFacts.forallb_del.
Qed.

Lemma game_keyed_watchers (key : string) (g : Game.t)
    (ws : Dict.t (list Z)) :
  game_keyed (key, g) = true ->
  unique (Dict.keys ws) = true ->
  forallb (fun entry => canonical (fst entry)) ws = true ->
  game_keyed (key, Game.with_watchers ws g) = true.
Proof.
  unfold game_keyed. cbn [fst snd Game.with_watchers Game.watchers Game.id].
  rewrite !andb_true_iff. intros [[K _] _] U C. auto.
Qed.

Lemma track_game_well_keyed (w : write_outcome) (game_id : Z)
    (game_name : string) (channel_id user_id : Z) (t : GameTracker) :
  well_keyed (tracked_games t) = true ->
  well_keyed
    (tracked_games
       (snd (track_game w game_id game_name channel_id user_id t))) = true.
Proof.
  intros H. rewrite track_game_eq. cbn [snd].
  rewrite tracked_games_save. cbn [with_tracked_games tracked_games].
  apply well_keyed_set; auto.
  set (g := match Dict.get (str game_id) (tracked_games t) with
            | Some g => g
            | None => new_game game_id game_name
            end).
  assert (K : game_keyed (str game_id, g) = true).
  { subst g.
    destruct (Dict.get (str game_id) (tracked_games t)) as [g|] eqn:Hg.
    - exact (well_keyed_get _ _ _ H Hg).
    - unfold game_keyed. simpl. now rewrite String.eqb_refl. }
  pose proof K as K'. unfold game_keyed in K'. cbn [fst snd] in K'.
  apply andb_true_iff in K' as [K' C]. apply andb_true_iff in K' as [_ U].
  apply game_keyed_watchers; auto; unfold add_watcher.
  - now apply unique_set.
  - apply forallb_set_item; auto. apply canonical_str.
Qed.

Lemma untrack_game_well_keyed (w : write_outcome)
    (game_id channel_id user_id : Z) (t : GameTracker) :
  well_keyed (tracked_games t) = true ->
  well_keyed
    (tracked_games (snd (untrack_game w game_id channel_id user_id t)))
  = true.
Proof.
  intros H.
  destruct (watching (tracked_games t) game_id channel_id user_id) eqn:W;
    [|now rewrite untrack_game_unregistered].
  apply watching_true in W as [g [us [Hg [Hus C]]]].
  rewrite (untrack_game_registered w _ _ _ _ _ _ Hg Hus C). cbn [snd].
  rewrite tracked_games_save. cbn [with_tracked_games tracked_games].
  destruct (Dict.is_empty _); [now apply well_keyed_del|].
  apply well_keyed_set; auto.
  pose proof (well_keyed_get _ _ _ H Hg) as K.
  pose proof K as K'. unfold game_keyed in K'. cbn [fst snd] in K'.
  apply andb_true_iff in K' as [K' Cn]. apply andb_true_iff in K' as [_ U].
  apply game_keyed_watchers; auto; destruct (remove user_id us).
  - now apply unique_del.
  - now apply unique_set.
  - now apply DictFacts.forallb_del.
  - apply forallb_set_item; auto. apply canonical_str.
Qed.

Lemma update_game_data_well_keyed (w : write_outcome) (now : string)
    (game_id : Z) (price release_date : option string)
    (preorder_status : option bool) (last_update : option string)
    (t : GameTracker) :
  well_keyed (tracked_games t) = true ->
  well_keyed
    (tracked_games
       (snd (update_game_data w now game_id price release_date
                              preorder_status last_update t))) = true.
Proof.
  intros H.
  destruct (Dict.get (str game_id) (tracked_games t)) as [g|] eqn:Hg.
  - rewrite (update_game_data_tracked _ _ _ _ _ _ _ _ _ Hg). cbn [snd].
    rewrite tracked_games_save. cbn [with_tracked_games tracked_games].
    apply well_keyed_set; auto.
    exact (well_keyed_get _ _ _ H Hg).
  - now rewrite update_game_data_untracked.
Qed.

Lemma reachable_well_keyed (t : GameTracker) :
  reachable t -> well_keyed (tracked_games t) = true.
Proof.
  intros Rt. induction Rt.
  - reflexivity.
  - now apply track_game_well_keyed.
  - now apply untrack_game_well_keyed.
  - now apply update_game_data_well_keyed.
Qed.

(** ** Registration and removal together *)

Lemma remove_app_new (u : Z) (us : list Z) :
  contains u us = false -> remove u (us ++ [u]) = us.
Proof.
  induction us as [|x r IH]; simpl.
  - now rewrite Z.eqb_refl.
  - rewrite orb_false_iff. intros [N C]. rewrite N. now rewrite IH.
Qed.

Lemma game_ok_parts (g : Game.t) :
  game_ok g = true ->
  Dict.is_empty (Game.watchers g) = false /\
  forallb channel_ok (Game.watchers g) = true.
Proof.
  unfold game_ok. rewrite andb_true_iff, negb_true_iff. tauto.
Qed.

Lemma with_watchers_twice (ws ws' : Dict.t (list Z)) (g : Game.t) :
  Game.with_watchers ws (Game.with_watchers ws' g) = Game.with_watchers ws g.
Proof. reflexivity. Qed.

(** Registering a pair that was not registered and removing it again
    gives back the registry, key order included, when no game is without
    a channel entry and no channel entry is empty: the game, the channel
    entry or the list element that [track_game] appended is the one
    [untrack_game] takes away. *)
Theorem untrack_game_undoes_track_game (w1 w2 : write_outcome)
    (game_id : Z) (game_name : string) (channel_id user_id : Z)
    (t : GameTracker) :
  registry_ok (tracked_games t) = true ->
  watching (tracked_games t) game_id channel_id user_id = false ->
  let tracked := snd (track_game w1 game_id game_name channel_id user_id t) in
  let res := untrack_game w2 game_id channel_id user_id tracked in
  fst res = true /\ tracked_games (snd res) = tracked_games t.
Proof.
  intros Ok W tracked res. subst res tracked.
  rewrite track_game_eq. cbn [snd].
  set (g0 := match Dict.get (str game_id) (tracked_games t) with
             | Some g => g
             | None => new_game game_id game_name
             end).
  set (us0 := match Dict.get (str channel_id) (Game.watchers g0) with
              | Some us => us
              | None => []
              end).
  assert (C0 : contains user_id us0 = false).
  { subst us0 g0. unfold watching in W.
    destruct (Dict.get (str game_id) (tracked_games t)) as [g|];
      [|reflexivity].
    now destruct (Dict.get (str channel_id) (Game.watchers g)). }
  assert (A : add_watcher channel_id user_id (Game.watchers g0)
              = Dict.set (str channel_id) (us0 ++ [user_id])
                         (Game.watchers g0)).
  { unfold add_watcher. fold us0. now rewrite C0. }
  assert (Hin : contains user_id (us0 ++ [user_id]) = true).
  { rewrite contains_app. simpl. rewrite Z.eqb_refl.
    now rewrite orb_true_r. }
  rewrite (untrack_game_registered w2 game_id channel_id user_id _
             (Game.with_watchers
                (add_watcher channel_id user_id (Game.watchers g0)) g0)
             (us0 ++ [user_id])).
  - cbn [fst snd]. split; [reflexivity|].
    rewrite !tracked_games_save. cbn [with_tracked_games tracked_games].
    cbn [Game.with_watchers Game.watchers].
    rewrite (remove_app_new _ _ C0), A, del_set_same.
    rewrite DictFacts.set_set, del_set_same.
    subst us0 g0.
    destruct (Dict.get (str game_id) (tracked_games t)) as [g|] eqn:Hg.
    + destruct (game_ok_parts g (registry_ok_get _ _ _ Ok Hg)) as [Ne Cs].
      destruct (Dict.get (str channel_id) (Game.watchers g)) as [us|] eqn:Hus.
      * pose proof (DictFacts.forallb_get _ _ _ _ Cs Hus) as Hne.
        unfold channel_ok in Hne. cbn [snd] in Hne.
        destruct us as [|u0 us']; [discriminate|].
        rewrite DictFacts.is_empty_set, with_watchers_twice.
        rewrite DictFacts.set_set.
        rewrite (DictFacts.set_get_same _ _ _ Hus), with_watchers_same.
        now apply DictFacts.set_get_same.
      * simpl. rewrite (del_absent _ _ Hus), Ne, with_watchers_twice.
        rewrite DictFacts.set_set, with_watchers_same.
        now apply DictFacts.set_get_same.
    + simpl. now apply del_absent.
  - rewrite tracked_games_save. cbn [with_tracked_games tracked_games].
    apply DictFacts.get_set_same.
  - cbn [Game.with_watchers Game.watchers]. rewrite A.
    apply DictFacts.get_set_same.
  - exact Hin.
Qed.

Lemma untrack_game_undoes_track_game_witness :
  let t := snd (track_game WriteOk 730 "CS2" 1 9 fresh) in
  tracked_games
    (snd (untrack_game WriteOk 730 1 10
            (snd (track_game WriteOk 730 "Counter-Strike 2" 1 10 t))))
  = tracked_games t /\
  tracked_games
    (snd (untrack_game WriteOk 440 2 9
            (snd (track_game WriteOk 440 "TF2" 2 9 t))))
  = tracked_games t.
Proof.
  intros t. split.
  - exact (proj2 (untrack_game_undoes_track_game
                    WriteOk WriteOk 730 "Counter-Strike 2" 1 10 t
                    eq_refl eq_refl)).
  - exact (proj2 (untrack_game_undoes_track_game
                    WriteOk WriteOk 440 "TF2" 2 9 t eq_refl eq_refl)).
Defined.

(** The converse order does not give the registry back: once the last
    watcher of a game is removed the game's record is gone, and tracking
    the game again stores a new record, under the name now given, with an
    empty snapshot and no [last_check]. What had been observed is
    forgotten, so the next update of the price is a first observation. *)
Theorem track_game_after_last_untrack_forgets (w1 w2 w3 : write_outcome)
    (now : string) (game_id channel_id user_id channel_id' user_id' : Z)
    (game_name : string) (price : string) (t : GameTracker) (g : Game.t) :
  Dict.get (str game_id) (tracked_games t) = Some g ->
  Game.watchers g = [(str channel_id, [user_id])] ->
  let removed := snd (untrack_game w1 game_id channel_id user_id t) in
  let again :=
    snd (track_game w2 game_id game_name channel_id' user_id' removed) in
  Dict.get (str game_id) (tracked_games again)
  = Some (Game.make game_id game_name [(str channel_id', [user_id'])] None
            (Snapshot.make None None false None)) /\
  fst (update_game_data w3 now game_id (Some price) None None None again)
  = [].
Proof.
  intros Hg Hws removed again.
  assert (Gone : Dict.get (str game_id) (tracked_games removed) = None).
  { subst removed. unfold untrack_game. rewrite Hg, Hws. simpl.
    rewrite String.eqb_refl. simpl. rewrite Z.eqb_refl. simpl.
    rewrite String.eqb_refl. simpl. rewrite tracked_games_save. simpl.
    apply DictFacts.get_del_same. }
  pose proof (track_game_new w2 game_id game_name channel_id' user_id'
                removed Gone) as New. fold again in New.
  split; [exact New|].
  destruct (update_game_data_result w3 now game_id (Some price) None None
              None again _ New) as [E _].
  now rewrite E.
Qed.

Lemma track_game_after_last_untrack_forgets_witness :
  let t :=
    snd (update_game_data WriteOk "2024-01-01T00:00:00" 730 (Some "$9.99")
           None None None (snd (track_game WriteOk 730 "CS2" 1 9 fresh))) in
  stored (tracked_games t) 730
  = Some (Snapshot.make (Some "$9.99") None false None) /\
  stored
    (tracked_games
       (snd (track_game WriteOk 730 "CS2" 1 9
               (snd (untrack_game WriteOk 730 1 9 t))))) 730
  = Some (Snapshot.make None None false None).
Proof.
  intros t. split; [reflexivity|].
  unfold stored.
  rewrite (proj1 (track_game_after_last_untrack_forgets
                    WriteOk WriteOk WriteOk "2024-01-01T00:30:00"
                    730 1 9 1 9 "CS2" "$19.99" t
                    (Game.make 730 "CS2" [("1", [9])]
                       (Some "2024-01-01T00:00:00")
                       (Snapshot.make (Some "$9.99") None false None))
                    eq_refl eq_refl)).
  reflexivity.
Defined.

(** [track_game] on a game that is already tracked keeps the stored
    record apart from its watchers: the [name] argument is not used, and
    [id], [current_data] and [last_check] stay. For every game, the
    watchers other than the registered pair are the same as before. *)
Theorem track_game_frame (w : write_outcome) (game_id : Z)
    (game_name : string) (channel_id user_id : Z) (t : GameTracker) :
  let r' :=
    tracked_games
      (snd (track_game w game_id game_name channel_id user_id t)) in
  (forall g,
     Dict.get (str game_id) (tracked_games t) = Some g ->
     exists g',
       Dict.get (str game_id) r' = Some g' /\
       Game.id g' = Game.id g /\
       Game.name g' = Game.name g /\
       Game.current_data g' = Game.current_data g /\
       Game.last_check g' = Game.last_check g) /\
  (forall game_id' channel_id' user_id',
     (game_id', channel_id', user_id') <> (game_id, channel_id, user_id) ->
     watching r' game_id' channel_id' user_id'
     = watching (tracked_games t) game_id' channel_id' user_id') /\
  (forall other,
     other <> game_id ->
     Dict.get (str other) r' = Dict.get (str other) (tracked_games t)).
Proof.
  intros r'. subst r'. rewrite track_game_eq. cbn [snd].
  rewrite tracked_games_save. cbn [with_tracked_games tracked_games].
  split; [|split].
  - intros g Hg. rewrite Hg, DictFacts.get_set_same.
    eexists. split; [reflexivity|]. repeat split.
  - intros game_id' channel_id' user_id' N. unfold watching.
    destruct (Z.eq_dec game_id' game_id) as [->|Ng].
    + rewrite DictFacts.get_set_same.
      cbn [Game.with_watchers Game.watchers]. unfold add_watcher.
      set (g0 := match Dict.get (str game_id) (tracked_games t) with
                 | Some g => g
                 | None => new_game game_id game_name
                 end).
      assert (E : Dict.get (str channel_id') (Game.watchers g0)
                  = match Dict.get (str game_id) (tracked_games t) with
                    | Some g => Dict.get (str channel_id') (Game.watchers g)
                    | None => None
                    end).
      { subst g0. now destruct (Dict.get (str game_id) (tracked_games t)). }
      destruct (Z.eq_dec channel_id' channel_id) as [->|Nc].
      * assert (Nu : user_id' <> user_id) by congruence.
        rewrite DictFacts.get_set_same.
        apply Z.eqb_neq in Nu.
        assert (R : forall us,
                   contains user_id'
                     (if contains user_id us then us else us ++ [user_id])
                   = contains user_id' us).
        { intros us. destruct (contains user_id us); auto.
          rewrite contains_app. simpl. rewrite Nu. simpl.
          now rewrite orb_false_r. }
        rewrite R, E.
        destruct (Dict.get (str game_id) (tracked_games t)) as [g|]; auto.
        now destruct (Dict.get (str channel_id) (Game.watchers g)).
      * rewrite DictFacts.get_set_other.
        -- rewrite E.
           now destruct (Dict.get (str game_id) (tracked_games t)).
        -- intros S. now apply str_inj in S.
    + rewrite DictFacts.get_set_other; auto.
      intros S. now apply str_inj in S.
  - intros other N. apply DictFacts.get_set_other.
    intros S. now apply str_inj in S.
Qed.

Lemma track_game_frame_witness :
  let t := snd (track_game WriteOk 730 "CS2" 1 9 fresh) in
  let r' := tracked_games (snd (track_game WriteOk 730 "Renamed" 2 10 t)) in
  option_map Game.name (Dict.get (str 730) r') = Some "CS2" /\
  watching r' 730 1 9 = true.
Proof.
  intros t r'.
  destruct (track_game_frame WriteOk 730 "Renamed" 2 10 t)
    as [Kept [Others _]].
  split.
  - destruct (Kept _ eq_refl) as [g' [Hg' [_ [Hn _]]]].
    unfold r'. rewrite Hg'. simpl. now rewrite Hn.
  - unfold r'. rewrite (Others 730 1 9); [reflexivity|discriminate].
Defined.

(** ** Listing and notification targets *)

Lemma well_keyed_In (r : registry) (key : string) (g : Game.t) :
  well_keyed r = true -> In (key, g) r ->
  key = str (Game.id g) /\ Dict.get key r = Some g.
Proof.
  unfold well_keyed. rewrite andb_true_iff. intros [U H] I. split.
  - rewrite forallb_forall in H. specialize (H _ I).
    unfold game_keyed in H. cbn [fst snd] in H.
    rewrite !andb_true_iff in H. destruct H as [[K _] _].
    now apply String.eqb_eq in K.
  - now apply unique_In_get.
Qed.

Lemma get_tracked_games_In (channel_id user_id : option Z) (t : GameTracker)
    (s : summary) :
  In s (get_tracked_games channel_id user_id t) <->
  exists key g,
    In (key, g) (tracked_games t) /\
    listed channel_id user_id g = true /\ s = summary_of g.
Proof.
  unfold get_tracked_games. rewrite in_map_iff. split.
  - intros [[key g] [E I]]. apply filter_In in I as [I L].
    exists key, g. cbn [snd] in *. auto.
  - intros [key [g [I [L E]]]]. exists (key, g). split; auto.
    apply filter_In. auto.
Qed.

(** A game is in the list for a channel and a user exactly when the user
    watches it in that channel. *)
Lemma listed_for_user (game_id channel_id user_id : Z) (t : GameTracker) :
  well_keyed (tracked_games t) = true ->
  (exists s,
     In s (get_tracked_games (Some channel_id) (Some user_id) t) /\
     summary_id s = game_id) <->
  watching (tracked_games t) game_id channel_id user_id = true.
Proof.
  intros K. split.
  - intros [s [I E]]. apply get_tracked_games_In in I as [key [g [I [L ->]]]].
    destruct (well_keyed_In _ _ _ K I) as [-> Hg].
    cbn [summary_of summary_id] in E. subst game_id.
    unfold watching. rewrite Hg. exact L.
  - intros W. apply watching_true in W as [g [us [Hg [Hus C]]]].
    exists (summary_of g). split.
    + apply get_tracked_games_In. exists (str game_id), g.
      split; [now apply DictFacts.get_In|]. split; [|reflexivity].
      unfold listed. now rewrite Hus.
    + pose proof (well_keyed_In _ _ _ K (DictFacts.get_In _ _ _ Hg))
        as [E _].
      cbn [summary_of summary_id]. now apply str_inj in E.
Qed.

(** A game is in the list for a channel exactly when it has an entry
    for the channel. *)
Lemma listed_for_channel (game_id channel_id : Z) (t : GameTracker) :
  well_keyed (tracked_games t) = true ->
  (exists s,
     In s (get_tracked_games (Some channel_id) None t) /\
     summary_id s = game_id) <->
  exists g,
    Dict.get (str game_id) (tracked_games t) = Some g /\
    Dict.mem (str channel_id) (Game.watchers g) = true.
Proof.
  intros K. split.
  - intros [s [I E]]. apply get_tracked_games_In in I as [key [g [I [L ->]]]].
    destruct (well_keyed_In _ _ _ K I) as [-> Hg].
    cbn [summary_of summary_id] in E. subst game_id.
    exists g. split; [exact Hg|]. unfold listed in L. unfold Dict.mem.
    now destruct (Dict.get (str channel_id) (Game.watchers g)).
  - intros [g [Hg M]]. exists (summary_of g). split.
    + apply get_tracked_games_In. exists (str game_id), g.
      split; [now apply DictFacts.get_In|]. split; [|reflexivity].
      unfold listed. unfold Dict.mem in M.
      now destruct (Dict.get (str channel_id) (Game.watchers g)).
    + pose proof (well_keyed_In _ _ _ K (DictFacts.get_In _ _ _ Hg))
        as [E _].
      cbn [summary_of summary_id]. now apply str_inj in E.
Qed.

(** With both filters [get_tracked_games] returns the games the user
    watches in the channel, and with the channel filter alone the games
    that have an entry for the channel: a game id occurs in the list
    exactly in these cases, when the registry has the keys the tracker
    writes. *)
Theorem get_tracked_games_filters (game_id channel_id user_id : Z)
    (t : GameTracker) :
  well_keyed (tracked_games t) = true ->
  ((exists s,
      In s (get_tracked_games (Some channel_id) (Some user_id) t) /\
      summary_id s = game_id) <->
   watching (tracked_games t) game_id channel_id user_id = true) /\
  ((exists s,
      In s (get_tracked_games (Some channel_id) None t) /\
      summary_id s = game_id) <->
   exists g,
     Dict.get (str game_id) (tracked_games t) = Some g /\
     Dict.mem (str channel_id) (Game.watchers g) = true).
Proof.
  intros K. split.
  - now apply listed_for_user.
  - now apply listed_for_channel.
Qed.

Lemma get_tracked_games_filters_witness :
  let t := snd (track_game WriteOk 440 "TF2" 2 9
                  (snd (track_game WriteOk 730 "CS2" 1 9 fresh))) in
  (exists s,
     In s (get_tracked_games (Some 1) (Some 9) t) /\ summary_id s = 730) /\
  ~ (exists s,
       In s (get_tracked_games (Some 1) (Some 9) t) /\ summary_id s = 440).
Proof.
  intros t. split.
  - apply (proj1 (get_tracked_games_filters 730 1 9 t eq_refl)).
    reflexivity.
  - intros H.
    apply (proj1 (get_tracked_games_filters 440 1 9 t eq_refl)) in H.
    discriminate H.
Defined.

(** After [untrack_game] the game is not in the list of the user for the
    channel, whatever the call returned; and when the user was the only
    watcher of the channel, the game is not in the list of the channel
    either. The lists of users hold no id twice. *)
Theorem untracked_game_not_listed (w : write_outcome)
    (game_id channel_id user_id : Z) (t : GameTracker) :
  well_keyed (tracked_games t) = true ->
  users_distinct (tracked_games t) = true ->
  let t' := snd (untrack_game w game_id channel_id user_id t) in
  (forall s,
     In s (get_tracked_games (Some channel_id) (Some user_id) t') ->
     summary_id s <> game_id) /\
  (forall g,
     Dict.get (str game_id) (tracked_games t) = Some g ->
     Dict.get (str channel_id) (Game.watchers g) = Some [user_id] ->
     forall s,
       In s (get_tracked_games (Some channel_id) None t') ->
       summary_id s <> game_id).
Proof.
  intros K D t'.
  pose proof (untrack_game_well_keyed w game_id channel_id user_id t K)
    as K'. fold t' in K'.
  split.
  - intros s I E.
    assert (W : watching (tracked_games t') game_id channel_id user_id
                = true).
    { apply (listed_for_user game_id channel_id user_id t' K'). eauto. }
    subst t'.
    destruct (watching (tracked_games t) game_id channel_id user_id) eqn:W0.
    + apply watching_true in W0 as [g [us [Hg [Hus C]]]].
      rewrite (untrack_game_channel w _ _ _ _ _ _ _ Hg Hus C) in W.
      rewrite contains_remove_same in W; [discriminate|].
      apply distinct_NoDup. exact (users_distinct_get _ _ _ _ _ D Hg Hus).
    + rewrite untrack_game_unregistered in W by exact W0.
      cbn [snd] in W. congruence.
  - intros g Hg Hus s I E.
    assert (M : exists g',
               Dict.get (str game_id) (tracked_games t') = Some g' /\
               Dict.mem (str channel_id) (Game.watchers g') = true).
    { apply (listed_for_channel game_id channel_id t' K'). eauto. }
    destruct M as [g' [Hg' M]]. subst t'.
    assert (C : contains user_id [user_id] = true).
    { simpl. now rewrite Z.eqb_refl. }
    rewrite (untrack_game_registered w _ _ _ _ _ _ Hg Hus C) in Hg'.
    cbn [snd] in Hg'. rewrite tracked_games_save in Hg'.
    cbn [with_tracked_games tracked_games remove] in Hg'.
    rewrite Z.eqb_refl in Hg'.
    destruct (Dict.is_empty (Dict.del (str channel_id) (Game.watchers g))).
    + rewrite DictFacts.get_del_same in Hg'. discriminate.
    + rewrite DictFacts.get_set_same in Hg'. injection Hg' as <-.
      cbn [Game.with_watchers Game.watchers] in M.
      apply DictFacts.mem_get in M as [us M].
      rewrite DictFacts.get_del_same in M. discriminate.
Qed.

Lemma untracked_game_not_listed_witness :
  let t := snd (track_game WriteOk 730 "CS2" 1 10
                  (snd (track_game WriteOk 730 "CS2" 1 9 fresh))) in
  get_tracked_games (Some 1) (Some 9) t <> [] /\
  forall s,
    In s (get_tracked_games (Some 1) (Some 9)
            (snd (untrack_game WriteOk 730 1 9 t))) ->
    summary_id s <> 730.
Proof.
  intros t. split; [discriminate|].
  exact (proj1 (untracked_game_not_listed WriteOk 730 1 9 t
                  eq_refl eq_refl)).
Defined.

Lemma channels_of_canonical (ws : Dict.t (list Z)) :
  forallb (fun entry => canonical (fst entry)) ws = true ->
  exists channels,
    channels_of ws = Some channels /\
    map (fun ch => (str (Channel.channel_id ch), Channel.users ch)) channels
    = ws.
Proof.
  induction ws as [|[key us] r IH]; simpl.
  - intros _. now exists [].
  - rewrite andb_true_iff. intros [C H].
    destruct (IH H) as [channels [E M]].
    unfold canonical in C. destruct (int key) as [n|]; [|discriminate].
    apply String.eqb_eq in C. rewrite E. simpl.
    eexists. split; [reflexivity|]. simpl. now rewrite C, M.
Qed.

(** For a tracked game [get_notification_channels] returns one element
    per channel entry, in the order of the entries, with the channel id
    read back from the key and the list of users of the entry; so a user
    is among the users of the element for a channel exactly when the user
    watches the game in that channel. *)
Theorem get_notification_channels_are_watchers (game_id : Z)
    (t : GameTracker) (g : Game.t) :
  well_keyed (tracked_games t) = true ->
  Dict.get (str game_id) (tracked_games t) = Some g ->
  map (fun ch => (str (Channel.channel_id ch), Channel.users ch))
      (get_notification_channels game_id t)
  = Game.watchers g /\
  forall channel_id user_id,
    (exists ch,
       In ch (get_notification_channels game_id t) /\
       Channel.channel_id ch = channel_id /\
       contains user_id (Channel.users ch) = true) <->
    watching (tracked_games t) game_id channel_id user_id = true.
Proof.
  intros K Hg.
  pose proof (well_keyed_get _ _ _ K Hg) as Kg. unfold game_keyed in Kg.
  cbn [fst snd] in Kg. rewrite !andb_true_iff in Kg.
  destruct Kg as [[_ U] Cn].
  destruct (channels_of_canonical _ Cn) as [channels [E M]].
  unfold get_notification_channels. rewrite Hg, E.
  split; [exact M|].
  intros channel_id user_id. unfold watching. rewrite Hg. split.
  - intros [ch [I [Ec C]]].
    assert (Ie : In (str channel_id, Channel.users ch) (Game.watchers g)).
    { rewrite <- M, <- Ec.
      exact (in_map (fun ch => (str (Channel.channel_id ch),
                                Channel.users ch)) _ _ I). }
    now rewrite (unique_In_get _ _ _ U Ie).
  - destruct (Dict.get (str channel_id) (Game.watchers g)) as [us|] eqn:Hus;
      [|discriminate].
    intros C. apply DictFacts.get_In in Hus. rewrite <- M in Hus.
    apply in_map_iff in Hus as [ch [Ech I]].
    injection Ech as Ek Eu. exists ch. split; auto. split.
    + now apply str_inj.
    + now rewrite Eu.
Qed.

Lemma get_notification_channels_are_watchers_witness :
  let t := snd (track_game WriteOk 730 "CS2" 2 10
                  (snd (track_game WriteOk 730 "CS2" 1 9 fresh))) in
  get_notification_channels 730 t
  = [Channel.make 1 [9]; Channel.make 2 [10]] /\
  map (fun ch => (str (Channel.channel_id ch), Channel.users ch))
      (get_notification_channels 730 t)
  = [("1", [9]); ("2", [10])].
Proof.
  intros t. split; [reflexivity|].
  exact (proj1 (get_notification_channels_are_watchers 730 t
                  (Game.make 730 "CS2" [("1", [9]); ("2", [10])] None
                     (Snapshot.make None None false None))
                  eq_refl eq_refl)).
Defined.

(** ** Updates in closed form *)

Lemma check_price_eq (game_name : string) (price : option string)
    (notifications : list notification) (current : Snapshot.t) :
  check_price game_name price (notifications, current) =
  (notifications ++
   match changed price (Snapshot.price current) with
   | Some (old, new) =>
       [{| type := "price"; message := price_message game_name old new |}]
   | None => []
   end,
   Snapshot.make (merged price (Snapshot.price current))
                 (Snapshot.release_date current)
                 (Snapshot.preorder_status current)
                 (Snapshot.last_update current)).
Proof.
  destruct current as [cp cd cb cu].
  destruct price as [p|]; simpl; [|now rewrite app_nil_r].
  destruct cp as [old|]; simpl; [|now rewrite app_nil_r].
  destruct (String.eqb p old) eqn:E; simpl; [|reflexivity].
  apply String.eqb_eq in E. subst. now rewrite app_nil_r.
Qed.

Lemma check_release_date_eq (game_name : string)
    (release_date : option string) (notifications : list notification)
    (current : Snapshot.t) :
  check_release_date game_name release_date (notifications, current) =
  (notifications ++
   match changed release_date (Snapshot.release_date current) with
   | Some (old, new) =>
       [{| type := "release_date";
           message := release_date_message game_name old new |}]
   | None => []
   end,
   Snapshot.make (Snapshot.price current)
                 (merged release_date (Snapshot.release_date current))
                 (Snapshot.preorder_status current)
                 (Snapshot.last_update current)).
Proof.
  destruct current as [cp cd cb cu].
  destruct release_date as [d|]; simpl; [|now rewrite app_nil_r].
  destruct cd as [old|]; simpl; [|now rewrite app_nil_r].
  destruct (String.eqb d old) eqn:E; simpl; [|reflexivity].
  apply String.eqb_eq in E. subst. now rewrite app_nil_r.
Qed.

Lemma check_preorder_status_eq (game_name : string)
    (preorder_status : option bool) (notifications : list notification)
    (current : Snapshot.t) :
  check_preorder_status game_name preorder_status (notifications, current) =
  (notifications ++
   match flipped preorder_status (Snapshot.preorder_status current) with
   | Some new =>
       [{| type := "preorder"; message := preorder_message game_name new |}]
   | None => []
   end,
   Snapshot.make (Snapshot.price current)
                 (Snapshot.release_date current)
                 (match preorder_status with
                  | Some new => new
                  | None => Snapshot.preorder_status current
                  end)
                 (Snapshot.last_update current)).
Proof.
  destruct current as [cp cd cb cu].
  destruct preorder_status as [b|]; simpl; [|now rewrite app_nil_r].
  destruct (Bool.eqb b cb) eqn:E; simpl; [|reflexivity].
  apply Bool.eqb_prop in E. subst. now rewrite app_nil_r.
Qed.

(** The notifications and the snapshot an update computes from the
    stored snapshot [current]. *)
Lemma checks_eq (game_name : string) (price release_date : option string)
    (preorder_status : option bool) (last_update : option string)
    (current : Snapshot.t) :
  set_last_update last_update
    (check_preorder_status game_name preorder_status
       (check_release_date game_name release_date
          (check_price game_name price ([], current)))) =
  (match changed price (Snapshot.price current) with
   | Some (old, new) =>
       [{| type := "price"; message := price_message game_name old new |}]
   | None => []
   end ++
   match changed release_date (Snapshot.release_date current) with
   | Some (old, new) =>
       [{| type := "release_date";
           message := release_date_message game_name old new |}]
   | None => []
   end ++
   match flipped preorder_status (Snapshot.preorder_status current) with
   | Some new =>
       [{| type := "preorder"; message := preorder_message game_name new |}]
   | None => []
   end,
   Snapshot.make (merged price (Snapshot.price current))
                 (merged release_date (Snapshot.release_date current))
                 (match preorder_status with
                  | Some new => new
                  | None => Snapshot.preorder_status current
                  end)
                 (merged last_update (Snapshot.last_update current))).
Proof.
  rewrite check_price_eq, check_release_date_eq, check_preorder_status_eq.
  cbn [Snapshot.price Snapshot.release_date Snapshot.preorder_status
       Snapshot.last_update app].
  rewrite <- app_assoc.
  destruct last_update; reflexivity.
Qed.

Lemma changed_merged (observed previous : option string) :
  changed observed (merged observed previous) = None.
Proof.
  destruct observed as [v|]; simpl; [now rewrite String.eqb_refl|].
  now destruct previous.
Qed.

Lemma merged_merged {A : Type} (observed previous : option A) :
  merged observed (merged observed previous) = merged observed previous.
Proof. now destruct observed. Qed.

Lemma update_game_data_get (w : write_outcome) (now : string)
    (game_id : Z) (price release_date : option string)
    (preorder_status : option bool) (last_update : option string)
    (t : GameTracker) (g : Game.t) :
  Dict.get (str game_id) (tracked_games t) = Some g ->
  let current := Game.current_data g in
  Dict.get (str game_id)
    (tracked_games
       (snd (update_game_data w now game_id price release_date
                              preorder_status last_update t)))
  = Some
      (Game.make (Game.id g) (Game.name g) (Game.watchers g) (Some now)
         (Snapshot.make
            (merged price (Snapshot.price current))
            (merged release_date (Snapshot.release_date current))
            (match preorder_status with
             | Some new => new
             | None => Snapshot.preorder_status current
             end)
            (merged last_update (Snapshot.last_update current)))).
Proof.
  intros Hg current.
  destruct (update_game_data_result w now game_id price release_date
              preorder_status last_update t g Hg) as [_ G].
  rewrite G, checks_eq. reflexivity.
Qed.

(** What an update stores for a tracked game: every field of the
    snapshot that was observed has the observed value, every other field
    keeps its value, and [last_check] is the time of the call. *)
Theorem update_game_data_stores (w : write_outcome) (now : string)
    (game_id : Z) (price release_date : option string)
    (preorder_status : option bool) (last_update : option string)
    (t : GameTracker) (g : Game.t) :
  Dict.get (str game_id) (tracked_games t) = Some g ->
  let current := Game.current_data g in
  Dict.get (str game_id)
    (tracked_games
       (snd (update_game_data w now game_id price release_date
                              preorder_status last_update t)))
  = Some
      (Game.make (Game.id g) (Game.name g) (Game.watchers g) (Some now)
         (Snapshot.make
            (merged price (Snapshot.price current))
            (merged release_date (Snapshot.release_date current))
            (match preorder_status with
             | Some new => new
             | None => Snapshot.preorder_status current
             end)
            (merged last_update (Snapshot.last_update current)))).
Proof. apply update_game_data_get. Qed.

Lemma update_game_data_stores_witness :
  let t :=
    snd (update_game_data WriteOk "2024-01-01T00:00:00" 730 (Some "$9.99")
           (Some "Jan 2025") None None
           (snd (track_game WriteOk 730 "CS2" 1 9 fresh))) in
  stored
    (tracked_games
       (snd (update_game_data WriteOk "2024-01-01T00:30:00" 730 None
               (Some "Feb 2025") (Some true) None t))) 730
  = Some (Snapshot.make (Some "$9.99") (Some "Feb 2025") true None).
Proof.
  intros t. unfold stored.
  rewrite (update_game_data_stores WriteOk "2024-01-01T00:30:00" 730 None
             (Some "Feb 2025") (Some true) None t
             (Game.make 730 "CS2" [("1", [9])] (Some "2024-01-01T00:00:00")
                (Snapshot.make (Some "$9.99") (Some "Jan 2025") false None))
             eq_refl).
  reflexivity.
Defined.

(** When each kind of notification is returned, for a tracked game: a
    [price] (or [release_date]) notification exactly when a value was
    observed, a value was stored, and the two differ; a [preorder]
    notification exactly when a status was observed that differs from the
    stored one. At most one notification of each kind is returned. *)
Theorem update_game_data_notifies (w : write_outcome) (now : string)
    (game_id : Z) (price release_date : option string)
    (preorder_status : option bool) (last_update : option string)
    (t : GameTracker) (g : Game.t) :
  Dict.get (str game_id) (tracked_games t) = Some g ->
  let current := Game.current_data g in
  let notifications :=
    fst (update_game_data w now game_id price release_date preorder_status
                          last_update t) in
  (notifies "price" notifications = true <->
   exists new old,
     price = Some new /\ Snapshot.price current = Some old /\ new <> old) /\
  (notifies "release_date" notifications = true <->
   exists new old,
     release_date = Some new /\ Snapshot.release_date current = Some old /\
     new <> old) /\
  (notifies "preorder" notifications = true <->
   exists new,
     preorder_status = Some new /\
     new <> Snapshot.preorder_status current) /\
  (List.length notifications <= 3)%nat /\
  NoDup (map type notifications).
Proof.
  intros Hg current notifications. subst notifications.
  destruct (update_game_data_result w now game_id price release_date
              preorder_status last_update t g Hg) as [E _].
  rewrite E, checks_eq. fold current. cbn [fst]. clear E.
  assert (P : forall observed previous,
             (exists new old : string,
                observed = Some new /\ previous = Some old /\ new <> old) <->
             changed observed previous <> None).
  { intros observed previous. unfold changed. split.
    - intros [new [old [-> [-> N]]]]. apply String.eqb_neq in N.
      now rewrite N.
    - destruct observed as [new|]; [|congruence].
      destruct previous as [old|]; [|congruence].
      destruct (String.eqb new old) eqn:N; [congruence|].
      apply String.eqb_neq in N. intros _. now exists new, old. }
  assert (B : (exists new : bool,
                 preorder_status = Some new /\
                 new <> Snapshot.preorder_status current) <->
              flipped preorder_status (Snapshot.preorder_status current)
              <> None).
  { unfold flipped. split.
    - intros [new [-> N]].
      destruct (Bool.eqb new (Snapshot.preorder_status current)) eqn:F;
        [|congruence].
      apply Bool.eqb_prop in F. congruence.
    - destruct preorder_status as [new|]; [|congruence].
      destruct (Bool.eqb new (Snapshot.preorder_status current)) eqn:F;
        [congruence|].
      intros _. exists new. split; auto. intros ->.
      now rewrite Bool.eqb_reflx in F. }
  rewrite (P price), (P release_date), B.
  destruct (changed price (Snapshot.price current)) as [[? ?]|];
    destruct (changed release_date (Snapshot.release_date current))
      as [[? ?]|];
    destruct (flipped preorder_status (Snapshot.preorder_status current));
    cbn; repeat split; intros; try congruence; try lia;
    repeat constructor; cbn; intuition congruence.
Qed.

Lemma update_game_data_notifies_witness :
  let t :=
    snd (update_game_data WriteOk "2024-01-01T00:00:00" 730 (Some "$9.99")
           None None None (snd (track_game WriteOk 730 "CS2" 1 9 fresh))) in
  notifies "price"
    (fst (update_game_data WriteOk "2024-01-01T00:30:00" 730 (Some "$19.99")
            (Some "Jan 2025") None None t)) = true /\
  notifies "release_date"
    (fst (update_game_data WriteOk "2024-01-01T00:30:00" 730 (Some "$19.99")
            (Some "Jan 2025") None None t)) = false.
Proof.
  intros t.
  destruct (update_game_data_notifies WriteOk "2024-01-01T00:30:00" 730
              (Some "$19.99") (Some "Jan 2025") None None t
              (Game.make 730 "CS2" [("1", [9])] (Some "2024-01-01T00:00:00")
                 (Snapshot.make (Some "$9.99") None false None))
              eq_refl) as [Price _].
  split; [|reflexivity].
  apply Price. exists "$19.99", "$9.99". repeat split. discriminate.
Defined.

(** An update repeated with the same observed values is silent: the
    second call returns no notification and stores the same snapshot,
    whatever the stored values were before the first call and whether or
    not the game is tracked. *)
Theorem update_game_data_repeat_silent (w1 w2 : write_outcome)
    (now1 now2 : string) (game_id : Z) (price release_date : option string)
    (preorder_status : option bool) (last_update : option string)
    (t : GameTracker) :
  let first := update_game_data w1 now1 game_id price release_date
                                preorder_status last_update t in
  let second := update_game_data w2 now2 game_id price release_date
                                 preorder_status last_update (snd first) in
  fst second = [] /\
  stored (tracked_games (snd second)) game_id
  = stored (tracked_games (snd first)) game_id.
Proof.
  intros first second. subst second first.
  destruct (Dict.get (str game_id) (tracked_games t)) as [g|] eqn:Hg.
  - pose proof (update_game_data_get w1 now1 game_id price release_date
                  preorder_status last_update t g Hg) as G1.
    cbv zeta in G1.
    destruct (update_game_data_result w2 now2 game_id price release_date
                preorder_status last_update _ _ G1) as [E2 G2].
    unfold stored. rewrite E2, G2, G1, checks_eq.
    cbn [Game.current_data Game.name Snapshot.price Snapshot.release_date
         Snapshot.preorder_status Snapshot.last_update fst snd option_map
         Game.with_last_check Game.with_current_data].
    rewrite !changed_merged, !merged_merged.
    assert (F : flipped preorder_status
                  match preorder_status with
                  | Some new => new
                  | None => Snapshot.preorder_status (Game.current_data g)
                  end = None).
    { destruct preorder_status as [b|]; simpl; auto.
      now rewrite Bool.eqb_reflx. }
    rewrite F. split; [reflexivity|].
    now destruct preorder_status.
  - rewrite (update_game_data_untracked w1) by exact Hg. cbn [snd].
    rewrite (update_game_data_untracked w2) by exact Hg.
    split; reflexivity.
Qed.

(** ** Removal twice *)

(** After [untrack_game], a second call with the same arguments finds
    nothing to remove: it returns [False] and leaves the tracker, file
    included, as the first call left it. The lists of users hold no id
    twice. *)
Theorem untrack_game_twice (w1 w2 : write_outcome)
    (game_id channel_id user_id : Z) (t : GameTracker) :
  users_distinct (tracked_games t) = true ->
  let first := untrack_game w1 game_id channel_id user_id t in
  untrack_game w2 game_id channel_id user_id (snd first)
  = (false, snd first).
Proof.
  intros D first. subst first. apply untrack_game_unregistered.
  destruct (watching (tracked_games t) game_id channel_id user_id) eqn:W.
  - apply watching_true in W as [g [us [Hg [Hus C]]]].
    rewrite (untrack_game_channel w1 _ _ _ _ _ _ _ Hg Hus C).
    apply contains_remove_same. apply distinct_NoDup.
    exact (users_distinct_get _ _ _ _ _ D Hg Hus).
  - now rewrite untrack_game_unregistered.
Qed.

Lemma untrack_game_twice_witness :
  let t := snd (track_game WriteOk 730 "CS2" 1 9 fresh) in
  let first := untrack_game WriteOk 730 1 9 t in
  fst first = true /\
  untrack_game WriteOk 730 1 9 (snd first) = (false, snd first).
Proof.
  intros t first. split; [reflexivity|].
  exact (untrack_game_twice WriteOk WriteOk 730 1 9 t eq_refl).
Defined.

(** ** The data file *)

(** Every method that changes the registry writes the whole registry to
    the data file before it returns. When that write succeeds, a tracker
    started from the file ([__init__]) is the tracker the method left,
    registry and file; when it fails, a tracker started from the file has
    only what the failed write left there. The calls that change nothing
    ([untrack_game] returning [False], [update_game_data] for an untracked
    game) do not write. *)
Theorem restart_after_write (w : write_outcome) (t : GameTracker) :
  let restart (t' : GameTracker) :=
    match w with
    | WriteOk => init (disk t') = t'
    | WriteFails residue => init (disk t') = init residue
    end in
  (forall game_id game_name channel_id user_id,
     restart (snd (track_game w game_id game_name channel_id user_id t))) /\
  (forall game_id channel_id user_id,
     let res := untrack_game w game_id channel_id user_id t in
     if fst res then restart (snd res) else snd res = t) /\
  (forall now game_id price release_date preorder_status last_update,
     let res := update_game_data w now game_id price release_date
                                 preorder_status last_update t in
     if Dict.mem (str game_id) (tracked_games t)
     then restart (snd res)
     else snd res = t).
Proof.
  intros restart.
  assert (S : forall t0, restart (_save_tracking_data w t0)).
  { intros t0. subst restart. cbv beta. now destruct w. }
  split; [|split].
  - intros. rewrite track_game_eq. apply S.
  - intros game_id channel_id user_id res. subst res.
    destruct (watching (tracked_games t) game_id channel_id user_id) eqn:W.
    + apply watching_true in W as [g [us [Hg [Hus C]]]].
      rewrite (untrack_game_registered w _ _ _ _ _ _ Hg Hus C).
      cbn [fst snd]. apply S.
    + now rewrite untrack_game_unregistered.
  - intros now game_id price release_date preorder_status last_update res.
    subst res. unfold Dict.mem.
    destruct (Dict.get (str game_id) (tracked_games t)) as [g|] eqn:Hg.
    + rewrite (update_game_data_tracked _ _ _ _ _ _ _ _ _ Hg).
      cbn [snd]. apply S.
    + now rewrite update_game_data_untracked.
Qed.

(** A failed write that left the old file: the pair is registered in
    memory and lost by a restart. *)
Example restart_after_failed_write :
  let t := snd (track_game WriteOk 730 "CS2" 1 9 fresh) in
  let t' := snd (track_game (WriteFails (disk t)) 440 "TF2" 1 9 t) in
  watching (tracked_games t') 440 1 9 = true /\
  watching (tracked_games (init (disk t'))) 440 1 9 = false.
Proof. split; reflexivity. Qed.

(** * The polling task *)

(** ** What a run keeps *)

Lemma registration_set (r : registry) (key : string) (g g' : Game.t) :
  Dict.get key r = Some g ->
  Game.id g' = Game.id g -> Game.name g' = Game.name g ->
  Game.watchers g' = Game.watchers g ->
  map registration (Dict.set key g' r) = map registration r.
Proof.
  intros Hg Ei En Ew. induction r as [|[k v] r IH]; simpl in *.
  - discriminate.
  - destruct (String.eqb key k) eqn:E; simpl.
    + injection Hg as ->. unfold registration at 1 3. simpl.
      now rewrite Ei, En, Ew.
    + now rewrite IH.
Qed.

Lemma update_game_data_registration (w : write_outcome) (now : string)
    (game_id : Z) (price release_date : option string)
    (preorder_status : option bool) (last_update : option string)
    (t : GameTracker) :
  map registration
    (tracked_games
       (snd (update_game_data w now game_id price release_date
                              preorder_status last_update t)))
  = map registration (tracked_games t).
Proof.
  destruct (Dict.get (str game_id) (tracked_games t)) as [g|] eqn:Hg.
  - rewrite (update_game_data_tracked _ _ _ _ _ _ _ _ _ Hg). cbn [snd].
    rewrite tracked_games_save. cbn [with_tracked_games tracked_games].
    now apply (registration_set _ _ g).
  - now rewrite update_game_data_untracked.
Qed.

Lemma update_game_data_other_key (w : write_outcome) (now : string)
    (game_id : Z) (price release_date : option string)
    (preorder_status : option bool) (last_update : option string)
    (t : GameTracker) (key : string) :
  key <> str game_id ->
  Dict.get key
    (tracked_games
       (snd (update_game_data w now game_id price release_date
                              preorder_status last_update t)))
  = Dict.get key (tracked_games t).
Proof.
  intros N.
  destruct (Dict.get (str game_id) (tracked_games t)) as [g|] eqn:Hg.
  - rewrite (update_game_data_tracked _ _ _ _ _ _ _ _ _ Hg). cbn [snd].
    rewrite tracked_games_save. cbn [with_tracked_games tracked_games].
    now apply DictFacts.get_set_other.
  - now rewrite update_game_data_untracked.
Qed.

(** Two registries with the same registrations have the same watchers
    under every key. *)
Lemma registration_watchers (r r' : registry) (key : string) :
  map registration r' = map registration r ->
  option_map Game.watchers (Dict.get key r')
  = option_map Game.watchers (Dict.get key r).
Proof.
  revert r'. induction r as [|[k v] r IH]; intros [|[k' v'] r'] E;
    simpl in *; try discriminate; auto.
  injection E as Ek _ _ Ew Er. subst k'.
  destruct (String.eqb key k); simpl; [now rewrite Ew|now apply IH].
Qed.

Lemma registration_watching (r r' : registry)
    (game_id channel_id user_id : Z) :
  map registration r' = map registration r ->
  watching r' game_id channel_id user_id
  = watching r game_id channel_id user_id.
Proof.
  intros E. unfold watching.
  pose proof (registration_watchers r r' (str game_id) E) as H.
  destruct (Dict.get (str game_id) r') as [g'|],
           (Dict.get (str game_id) r) as [g|];
    simpl in H; try discriminate; auto.
  injection H as ->. reflexivity.
Qed.

Lemma registration_channels (t t' : GameTracker) (game_id : Z) :
  map registration (tracked_games t') = map registration (tracked_games t) ->
  get_notification_channels game_id t' = get_notification_channels game_id t.
Proof.
  intros E. unfold get_notification_channels.
  pose proof (registration_watchers _ _ (str game_id) E) as H.
  destruct (Dict.get (str game_id) (tracked_games t')) as [g'|],
           (Dict.get (str game_id) (tracked_games t)) as [g|];
    simpl in H; try discriminate; auto.
  injection H as ->. reflexivity.
Qed.

Lemma poll_registration (e : environment) (games : list summary) :
  forall (i : nat) (t : GameTracker) (sent : list outgoing),
    map registration (tracked_games (snd (poll e i games t sent)))
    = map registration (tracked_games t).
Proof.
  induction games as [|game rest IH]; intros i t sent; simpl; auto.
  destruct (fetch e i) as [| |price release_date preorder_status]; auto.
  pose proof (update_game_data_registration (write_of e i) (check_time e i)
                (summary_id game) price release_date preorder_status
                (Some (update_time e i)) t) as U.
  destruct (update_game_data _ _ _ _ _ _ _ t) as [notifications t1].
  cbn [snd] in U.
  destruct notifications as [|n ns]; [now rewrite IH|].
  destruct (notify_channels _ _ _ _ _ _ _) as [raised sent1].
  destruct raised; [exact U|now rewrite IH].
Qed.

(** A run of the task changes neither the keys of the store and their
    order nor the [id], [name] and [watchers] of any game: whatever the
    store replies and whatever fails, who watches what is the same after
    the run, and so are the notification targets of every game. *)
Theorem check_tracked_games_keeps_watchers (e : environment)
    (t : GameTracker) :
  let t' := snd (check_tracked_games e t) in
  map registration (tracked_games t') = map registration (tracked_games t) /\
  (forall game_id channel_id user_id,
     watching (tracked_games t') game_id channel_id user_id
     = watching (tracked_games t) game_id channel_id user_id) /\
  (forall game_id,
     get_notification_channels game_id t'
     = get_notification_channels game_id t).
Proof.
  intros t'. subst t'. unfold check_tracked_games.
  pose proof (poll_registration e (get_tracked_games None None t) 0 t [])
    as R.
  split; [exact R|]. split.
  - intros. now apply registration_watching.
  - intros. now apply registration_channels.
Qed.

(** ** Exceptions and skipped games *)

(** A key keeps its record when no game of the list that is stored
    under it gets as far as [update_game_data]. *)
Lemma poll_keeps (e : environment) (key : string) (games : list summary) :
  forall (i : nat) (t : GameTracker) (sent : list outgoing),
    (forall k game price release_date preorder_status,
       nth_error games k = Some game ->
       fetch e (i + k) = Observes price release_date preorder_status ->
       str (summary_id game) <> key) ->
    Dict.get key (tracked_games (snd (poll e i games t sent)))
    = Dict.get key (tracked_games t).
Proof.
  induction games as [|game rest IH]; intros i t sent H; simpl; auto.
  assert (Hrest : forall k game price release_date preorder_status,
             nth_error rest k = Some game ->
             fetch e (S i + k) = Observes price release_date preorder_status ->
             str (summary_id game) <> key).
  { intros k g p d b Hn Hf. apply (H (S k) g p d b); auto.
    now rewrite Nat.add_succ_r. }
  destruct (fetch e i) as [| |price release_date preorder_status] eqn:F;
    auto.
  assert (N : key <> str (summary_id game)).
  { intros ->. apply (H 0%nat game price release_date preorder_status);
      auto. now rewrite Nat.add_0_r. }
  pose proof (update_game_data_other_key (write_of e i) (check_time e i)
                (summary_id game) price release_date preorder_status
                (Some (update_time e i)) t key N) as U.
  destruct (update_game_data _ _ _ _ _ _ _ t) as [notifications t1].
  cbn [snd] in U.
  destruct notifications as [|n ns]; [now rewrite IH|].
  destruct (notify_channels _ _ _ _ _ _ _) as [raised sent1].
  destruct raised; [exact U|now rewrite IH].
Qed.

(** The loop stops at the first request that raises. *)
Lemma poll_stops (e : environment) (game : summary)
    (post : list summary) (pre : list summary) :
  forall (i : nat) (t : GameTracker) (sent : list outgoing),
    fetch e (i + List.length pre) = Raises ->
    poll e i (pre ++ game :: post) t sent = poll e i pre t sent.
Proof.
  induction pre as [|g pre IH]; intros i t sent F; simpl in *.
  - rewrite Nat.add_0_r in F. now rewrite F.
  - rewrite Nat.add_succ_r in F.
    destruct (fetch e i) as [| |price release_date preorder_status]; auto.
    destruct (update_game_data _ _ _ _ _ _ _ t) as [notifications t1].
    destruct notifications as [|n ns]; [now apply IH|].
    destruct (notify_channels _ _ _ _ _ _ _) as [raised sent1].
    destruct raised; [reflexivity|now apply IH].
Qed.

Lemma unique_keys_ids (r : registry) :
  well_keyed r = true -> NoDup (map (fun item => Game.id (snd item)) r).
Proof.
  unfold well_keyed. rewrite andb_true_iff. intros [U K].
  induction r as [|[k g] r IH]; simpl in *; [constructor|].
  rewrite !andb_true_iff, negb_true_iff in *.
  destruct U as [Nk U]. destruct K as [Kg K].
  constructor; [|now apply IH].
  intros I. apply in_map_iff in I as [[k' g'] [E I]]. simpl in E.
  rewrite forallb_forall in K. pose proof (K _ I) as Kg'.
  unfold game_keyed in Kg, Kg'. cbn [fst snd] in Kg, Kg'.
  rewrite !andb_true_iff in Kg, Kg'.
  destruct Kg as [[Kg _] _]. destruct Kg' as [[Kg' _] _].
  apply String.eqb_eq in Kg, Kg'. subst k k'. rewrite E in I.
  assert (X : existsb (String.eqb (str (Game.id g))) (Dict.keys r) = true).
  { apply existsb_exists. exists (str (Game.id g)). split.
    - apply in_map_iff. now exists (str (Game.id g), g').
    - apply String.eqb_refl. }
  congruence.
Qed.

Lemma NoDup_app_apart (l l' : list Z) (a : Z) :
  NoDup (l ++ l') -> In a l -> In a l' -> False.
Proof.
  induction l as [|x l IH]; simpl; [tauto|].
  intros N [->|I] I'.
  - inversion N as [|? ? Hx _]; subst. apply Hx. apply in_or_app. now right.
  - inversion N; subst. now apply IH.
Qed.

Lemma get_tracked_games_ids (t : GameTracker) :
  map summary_id (get_tracked_games None None t)
  = map (fun item => Game.id (snd item)) (tracked_games t).
Proof.
  unfold get_tracked_games. cbn [listed].
  induction (tracked_games t) as [|x r IH]; simpl; now rewrite ?IH.
Qed.

(** When the request for a game raises, the run ends there: it is the
    run over the games before that one, nothing is sent for the game or
    for the games after it, and their records (snapshot and [last_check]
    included) stay as they were. The task itself returns normally. *)
Theorem check_tracked_games_stops_at_exception (e : environment)
    (t : GameTracker) (pre post : list summary) (game : summary) :
  well_keyed (tracked_games t) = true ->
  get_tracked_games None None t = pre ++ game :: post ->
  fetch e (List.length pre) = Raises ->
  check_tracked_games e t = poll e 0 pre t [] /\
  forall later,
    In later (game :: post) ->
    Dict.get (str (summary_id later))
             (tracked_games (snd (check_tracked_games e t)))
    = Dict.get (str (summary_id later)) (tracked_games t).
Proof.
  intros K L F.
  assert (S : check_tracked_games e t = poll e 0 pre t []).
  { unfold check_tracked_games. rewrite L. now apply poll_stops. }
  split; [exact S|].
  intros later I. rewrite S. apply poll_keeps.
  intros k g p d b Hn _ E. apply str_inj in E.
  pose proof (unique_keys_ids _ K) as U.
  rewrite <- get_tracked_games_ids, L, map_app in U.
  apply (NoDup_app_apart _ _ (summary_id later) U).
  - rewrite <- E. apply in_map. now apply nth_error_In in Hn.
  - now apply (in_map summary_id) in I.
Qed.

Lemma check_tracked_games_stops_at_exception_witness :
  let t := snd (track_game WriteOk 440 "TF2" 2 9
                  (snd (track_game WriteOk 730 "CS2" 1 9 fresh))) in
  let e := {| fetch := fun i =>
                match i with
                | O => Raises
                | S _ => Observes (Some "$9.99") None (Some true)
                end;
              update_time := fun _ => "2024-01-01T00:00:00";
              check_time := fun _ => "2024-01-01T00:00:01";
              write_of := fun _ => WriteOk;
              get_channel := fun _ => true;
              send_raises := fun _ _ _ => false |} in
  check_tracked_games e t = ([], t) /\
  stored (tracked_games (snd (check_tracked_games e t))) 440
  = Some (Snapshot.make None None false None).
Proof.
  intros t e.
  destruct (check_tracked_games_stops_at_exception e t []
              [summary_of (Game.make 440 "TF2" [("2", [9])] None
                             (Snapshot.make None None false None))]
              (summary_of (Game.make 730 "CS2" [("1", [9])] None
                             (Snapshot.make None None false None)))
              eq_refl eq_refl eq_refl) as [Stop Later].
  split; [exact Stop|].
  unfold stored.
  pose proof (Later _ (or_intror (or_introl eq_refl))) as L.
  cbn [summary_of summary_id Game.id] in L. rewrite L. reflexivity.
Defined.

(** A game whose request does not lead to a call of [update_game_data]
    (a status other than 200, a reply without data for the game, or an
    exception) keeps its record, [last_check] included, through the whole
    run, whatever happens to the other games. *)
Theorem check_tracked_games_skipped_game (e : environment)
    (t : GameTracker) (n : nat) (game : summary) :
  well_keyed (tracked_games t) = true ->
  nth_error (get_tracked_games None None t) n = Some game ->
  (forall price release_date preorder_status,
     fetch e n <> Observes price release_date preorder_status) ->
  Dict.get (str (summary_id game))
           (tracked_games (snd (check_tracked_games e t)))
  = Dict.get (str (summary_id game)) (tracked_games t).
Proof.
  intros K Hn F. unfold check_tracked_games. apply poll_keeps.
  intros k g p d b Hk Fk E. apply str_inj in E. simpl in Fk.
  pose proof (unique_keys_ids _ K) as U.
  rewrite <- get_tracked_games_ids in U.
  assert (k = n).
  { apply (proj1 (NoDup_nth_error _) U).
    - rewrite length_map. apply nth_error_Some. now rewrite Hk.
    - rewrite !nth_error_map, Hk, Hn. simpl. now rewrite E. }
  subst k. now apply (F p d b).
Qed.

Lemma check_tracked_games_skipped_game_witness :
  let t := snd (track_game WriteOk 440 "TF2" 2 9
                  (snd (track_game WriteOk 730 "CS2" 1 9 fresh))) in
  let e := {| fetch := fun i =>
                match i with
                | O => Skips
                | S _ => Observes (Some "$9.99") None (Some true)
                end;
              update_time := fun _ => "2024-01-01T00:00:00";
              check_time := fun _ => "2024-01-01T00:00:01";
              write_of := fun _ => WriteOk;
              get_channel := fun _ => true;
              send_raises := fun _ _ _ => false |} in
  option_map Game.last_check
    (Dict.get (str 730) (tracked_games (snd (check_tracked_games e t))))
  = Some None /\
  option_map Game.last_check
    (Dict.get (str 440) (tracked_games (snd (check_tracked_games e t))))
  = Some (Some "2024-01-01T00:00:01").
Proof.
  intros t e. split; [|reflexivity].
  assert (F : forall price release_date preorder_status,
             fetch e 0 <> Observes price release_date preorder_status).
  { intros p d b. discriminate. }
  pose proof (check_tracked_games_skipped_game e t 0
                (summary_of (Game.make 730 "CS2" [("1", [9])] None
                               (Snapshot.make None None false None)))
                eq_refl eq_refl F) as L.
  cbn [summary_of summary_id Game.id] in L. rewrite L. reflexivity.
Defined.

(** ** The messages *)






Lemma send_all_eq (raises : nat -> bool) (channel_data : Channel.t)
    (game_name : string) (notifications : list notification) :
  forall (k : nat) (sent : list outgoing),
    (forall k', raises k' = false) ->
    send_all raises k channel_data game_name notifications sent
    = (false,
       sent ++ map (update_message channel_data game_name) notifications).
Proof.
  induction notifications as [|notif rest IH]; intros k sent H; simpl.
  - now rewrite app_nil_r.
  - rewrite H, IH by exact H. now rewrite <- app_assoc.
Qed.

(** When no send raises, the notifications of a game go out one message
    per notification and channel, not one message per channel: channel by
    channel in the order of the targets, and for each channel the client
    knows, one message for each notification in the order of the list.
    The channels the client does not know are passed over. *)
Theorem notify_channels_one_message_each (e : environment) (i : nat)
    (game_name : string) (notifications : list notification)
    (channels : list Channel.t) (j : nat) (sent : list outgoing) :
  (forall j' k, send_raises e i j' k = false) ->
  let known :=
    filter (fun channel_data =>
              get_channel e (Channel.channel_id channel_data)) channels in
  notify_channels e i j channels game_name notifications sent
  = (false,
     sent ++
     flat_map (fun channel_data =>
                 map (update_message channel_data game_name) notifications)
              known) /\
  List.length
    (snd (notify_channels e i j channels game_name notifications sent))
  = (List.length sent
     + List.length known * List.length notifications)%nat.
Proof.
  intros H known. subst known.
  assert (E : forall j sent,
             notify_channels e i j channels game_name notifications sent
             = (false,
                sent ++
                flat_map
                  (fun channel_data =>
                     map (update_message channel_data game_name)
                         notifications)
                  (filter (fun channel_data =>
                             get_channel e (Channel.channel_id channel_data))
                          channels))).
  { clear j sent.
    induction channels as [|channel_data rest IH]; intros j sent; simpl.
    - now rewrite app_nil_r.
    - destruct (get_channel e (Channel.channel_id channel_data)); simpl.
      + rewrite send_all_eq by (intros; apply H).
        rewrite IH. now rewrite <- app_assoc.
      + apply IH. }
  split; [apply E|].
  rewrite E. cbn [snd]. rewrite length_app.
  assert (L : forall l : list Channel.t,
             List.length
               (flat_map (fun channel_data =>
                            map (update_message channel_data game_name)
                                notifications) l)
             = (List.length l * List.length notifications)%nat).
  { induction l as [|c l IH]; cbn [flat_map]; auto.
    rewrite length_app, length_map, IH. cbn [List.length]. lia. }
  now rewrite L.
Qed.

Lemma notify_channels_one_message_each_witness :
  let e := {| fetch := fun _ => Skips;
              update_time := fun _ => "";
              check_time := fun _ => "";
              write_of := fun _ => WriteOk;
              get_channel := fun channel_id => negb (Z.eqb channel_id 2);
              send_raises := fun _ _ _ => false |} in
  let notifications :=
    [{| type := "price"; message := price_message "CS2" "$9.99" "$19.99" |};
     {| type := "preorder"; message := preorder_message "CS2" true |}] in
  map (fun m => (channel m, description m))
    (snd (notify_channels e 0 0
            [Channel.make 1 [9]; Channel.make 2 [9]; Channel.make 3 [10]]
            "CS2" notifications []))
  = [(1, price_message "CS2" "$9.99" "$19.99");
     (1, preorder_message "CS2" true);
     (3, price_message "CS2" "$9.99" "$19.99");
     (3, preorder_message "CS2" true)].
Proof.
  intros e notifications.
  rewrite (proj1 (notify_channels_one_message_each e 0 "CS2" notifications
                    [Channel.make 1 [9]; Channel.make 2 [9];
                     Channel.make 3 [10]] 0 [] (fun _ _ => eq_refl))).
  reflexivity.
Defined.

(** ** The reply of the store *)

(** How the loop reads a reply. A status other than 200 passes the game
    over, whatever the body. With status 200: a body that is not an
    object raises; an object without an entry for the game, or with an
    entry that has no [data], passes the game over without an exception;
    and a non-empty [data] that has neither [price_overview] nor
    [release_date] leads to a call with no price, no release date and
    [preorder_status=False] (not [None]). *)
Theorem classify_edges (game_id : Z) :
  (forall status body,
     status <> 200 -> classify game_id (Reply status body) = Some Skips) /\
  (forall body,
     (forall items, body <> Some (JDict items)) ->
     classify game_id (Reply 200 body) = Some Raises) /\
  (forall items,
     Dict.get (str game_id) items = None ->
     classify game_id (Reply 200 (Some (JDict items))) = Some Skips) /\
  (forall items entry,
     Dict.get (str game_id) items = Some (JDict entry) ->
     Dict.get "data" entry = None ->
     classify game_id (Reply 200 (Some (JDict items))) = Some Skips) /\
  (forall items entry game_data,
     Dict.get (str game_id) items = Some (JDict entry) ->
     Dict.get "data" entry = Some (JDict game_data) ->
     game_data <> [] ->
     Dict.get "price_overview" game_data = None ->
     Dict.get "release_date" game_data = None ->
     classify game_id (Reply 200 (Some (JDict items)))
     = Some (Observes None None (Some false))).
Proof.
  split; [|split; [|split; [|split]]].
  - intros status body N. simpl. apply Z.eqb_neq in N. now rewrite N.
  - intros body N. simpl. destruct body as [[]|]; try reflexivity.
    now destruct (N items).
  - intros items H. unfold classify, json_get.
    change (Z.eqb 200 200) with true. cbv iota. now rewrite H.
  - intros items entry H1 H2. unfold classify, json_get.
    change (Z.eqb 200 200) with true. cbv iota. now rewrite H1, H2.
  - intros items entry game_data H1 H2 N H3 H4. unfold classify, json_get.
    change (Z.eqb 200 200) with true. cbv iota. rewrite H1, H2.
    destruct game_data as [|x l]; [congruence|].
    cbn [truthy]. now rewrite H3, H4.
Qed.

Lemma classify_edges_witness :
  classify 730 (Reply 404 None) = Some Skips /\
  classify 730 (Reply 200 (Some JNull)) = Some Raises /\
  classify 730
    (Reply 200 (Some (JDict [("730", JDict [("success", JBool false)])])))
  = Some Skips /\
  classify 730
    (Reply 200
       (Some (JDict [("730", JDict [("success", JBool true);
                                    ("data", JDict [("name", JStr "CS2")])])])))
  = Some (Observes None None (Some false)).
Proof.
  destruct (classify_edges 730) as [A [B [_ [C D]]]].
  split; [apply A; discriminate|].
  split; [apply B; discriminate|].
  split.
  - exact (C [("730", JDict [("success", JBool false)])]
             [("success", JBool false)] eq_refl eq_refl).
  - apply (D [("730", JDict [("success", JBool true);
                             ("data", JDict [("name", JStr "CS2")])])]
             [("success", JBool true);
              ("data", JDict [("name", JStr "CS2")])]
             [("name", JStr "CS2")]); try reflexivity.
    discriminate.
Defined.

(** * Reachable states *)

(** In every state the tracker reaches from a start without data file,
    by any calls of its methods with any arguments and any outcome of the
    writes: the store invariant holds, no game is without a channel entry,
    no channel entry is empty, no list of users holds an id twice, no key
    occurs twice, every game is stored under [str] of its [id] and every
    channel under [str] of an int. *)
Theorem reachable_invariants (t : GameTracker) :
  reachable t ->
  store_invariant (tracked_games t) /\
  registry_ok (tracked_games t) = true /\
  users_distinct (tracked_games t) = true /\
  well_keyed (tracked_games t) = true.
Proof.
  intros R. split; [|split; [|split]].
  - apply registry_ok_invariant. now apply reachable_registry_ok.
  - now apply reachable_registry_ok.
  - now apply reachable_users_distinct.
  - now apply reachable_well_keyed.
Qed.

Lemma reachable_invariants_witness :
  let t := snd (untrack_game (WriteFails None) 730 1 9
                  (snd (track_game WriteOk 730 "CS2" 2 10
                          (snd (track_game WriteOk 730 "CS2" 1 9 fresh))))) in
  reachable t /\
  registry_ok (tracked_games t) = true /\
  well_keyed (tracked_games t) = true.
Proof.
  intros t.
  assert (R : reachable t).
  { apply reachable_untrack. apply reachable_track. apply reachable_track.
    apply reachable_init. }
  split; [exact R|].
  destruct (reachable_invariants t R) as [_ [Ok [_ K]]]. now split.
Defined.

(** * A run without news *)

Lemma poll_quiet (e : environment) (games : list summary) :
  forall (i : nat) (t : GameTracker) (sent : list outgoing),
    NoDup (map summary_id games) ->
    (forall game,
       In game games ->
       exists g,
         Dict.get (str (summary_id game)) (tracked_games t) = Some g /\
         Game.current_data g = summary_current_data game) ->
    (forall k game price release_date preorder_status,
       nth_error games k = Some game ->
       fetch e (i + k) = Observes price release_date preorder_status ->
       changed price (Snapshot.price (summary_current_data game)) = None /\
       changed release_date
               (Snapshot.release_date (summary_current_data game)) = None /\
       flipped preorder_status
               (Snapshot.preorder_status (summary_current_data game))
       = None) ->
    fst (poll e i games t sent) = sent.
Proof.
  induction games as [|game rest IH]; intros i t sent U St Q; simpl; auto.
  inversion U as [|? ? Hhead Urest]; subst.
  assert (Qrest : forall k game0 price release_date preorder_status,
             nth_error rest k = Some game0 ->
             fetch e (S i + k) = Observes price release_date preorder_status ->
             changed price (Snapshot.price (summary_current_data game0))
             = None /\
             changed release_date
                     (Snapshot.release_date (summary_current_data game0))
             = None /\
             flipped preorder_status
                     (Snapshot.preorder_status (summary_current_data game0))
             = None).
  { intros k g p d b Hn Hf. apply (Q (S k) g p d b); auto.
    now rewrite Nat.add_succ_r. }
  destruct (fetch e i) as [| |price release_date preorder_status] eqn:F;
    auto.
  - apply IH; auto. intros g I. apply St. now right.
  - destruct (St game (or_introl eq_refl)) as [g [Hg Ec]].
    destruct (Q 0%nat game price release_date preorder_status eq_refl)
      as [Cp [Cd Cb]]; [now rewrite Nat.add_0_r|].
    destruct (update_game_data_result (write_of e i) (check_time e i)
                (summary_id game) price release_date preorder_status
                (Some (update_time e i)) t g Hg) as [E _].
    rewrite checks_eq, Ec, Cp, Cd, Cb in E. cbn [fst app] in E.
    assert (Srest : forall game0,
               In game0 rest ->
               exists g0,
                 Dict.get (str (summary_id game0))
                   (tracked_games
                      (snd (update_game_data (write_of e i) (check_time e i)
                              (summary_id game) price release_date
                              preorder_status (Some (update_time e i)) t)))
                 = Some g0 /\
                 Game.current_data g0 = summary_current_data game0).
    { intros game0 I. rewrite update_game_data_other_key.
      - apply St. now right.
      - intros Es. apply str_inj in Es. apply Hhead. rewrite <- Es.
        now apply in_map. }
    destruct (update_game_data _ _ _ _ _ _ _ t) as [notifications t1].
    cbn [fst snd] in *. subst notifications. now apply IH.
Qed.

(** A run in which no game shows a change sends nothing: when, for
    every game that is updated, the observed price and release date are
    absent, equal to the stored ones, or first observations, and the
    observed pre-order status is absent or the stored one, no message
    goes out, whatever the channels and the writes do. *)
Theorem check_tracked_games_quiet (e : environment) (t : GameTracker) :
  well_keyed (tracked_games t) = true ->
  (forall n game price release_date preorder_status,
     nth_error (get_tracked_games None None t) n = Some game ->
     fetch e n = Observes price release_date preorder_status ->
     changed price (Snapshot.price (summary_current_data game)) = None /\
     changed release_date
             (Snapshot.release_date (summary_current_data game)) = None /\
     flipped preorder_status
             (Snapshot.preorder_status (summary_current_data game)) = None) ->
  fst (check_tracked_games e t) = [].
Proof.
  intros K Q. unfold check_tracked_games. apply poll_quiet.
  - rewrite get_tracked_games_ids. now apply unique_keys_ids.
  - intros game I.
    apply get_tracked_games_In in I as [key [g [I [_ ->]]]].
    destruct (well_keyed_In _ _ _ K I) as [-> Hg].
    exists g. now split.
  - exact Q.
Qed.

Lemma check_tracked_games_quiet_witness :
  let t :=
    snd (update_game_data WriteOk "2024-01-01T00:00:00" 730 (Some "$9.99")
           None None None (snd (track_game WriteOk 730 "CS2" 1 9 fresh))) in
  let e := {| fetch := fun _ =>
                Observes (Some "$9.99") (Some "Jan 2025") (Some false);
              update_time := fun _ => "2024-01-01T00:30:00";
              check_time := fun _ => "2024-01-01T00:30:01";
              write_of := fun _ => WriteOk;
              get_channel := fun _ => true;
              send_raises := fun _ _ _ => false |} in
  fst (check_tracked_games e t) = [] /\
  stored (tracked_games (snd (check_tracked_games e t))) 730
  = Some (Snapshot.make (Some "$9.99") (Some "Jan 2025") false
            (Some "2024-01-01T00:30:00")).
Proof.
  intros t e. split; [|reflexivity].
  apply (check_tracked_games_quiet e t eq_refl).
  intros n game price release_date preorder_status Hn F.
  injection F as <- <- <-.
  destruct n as [|[|n]]; simpl in Hn; try discriminate.
  injection Hn as <-. repeat split.
Defined.
